(** * Yamale: the schema validation engine ([yamale/schema/schema.py])

    A shallow embedding of [Schema.validate] and of the recursive
    [_validate*] methods, and the properties of the engine that the
    specification states.

    Python values are an inductive type, dictionaries are association
    lists in insertion order (the order of the reported errors depends
    on it), the includes registry is a finite map from names to schema
    instances, and a method that can raise or recurse without bound
    returns an [Outcome]. *)

From Stdlib Require Import Ascii String ZArith List Lia.
From stdpp Require Import gmap strings list pretty.

Set Warnings "-register-all".

Local Open Scope string_scope.
Local Open Scope list_scope.
Local Open Scope Z_scope.

(** ** Python data *)

(** A dictionary key or a list index. *)
Inductive Key : Type :=
| KStr (s : string)
| KInt (i : Z).

Global Instance Key_eq_dec : EqDecision Key.
Proof. solve_decision. Defined.

Global Instance Key_countable : Countable Key.
Proof.
  refine (inj_countable'
            (fun k => match k with KStr s => inl s | KInt i => inr i end)
            (fun x => match x with inl s => KStr s | inr i => KInt i end) _).
  by intros [].
Defined.

(** The documents handed to [validate]: [None], scalars, sequences and
    mappings.  A mapping keeps its items in insertion order. *)
Inductive Data : Type :=
| DNone
| DBool (b : bool)
| DInt (i : Z)
| DStr (s : string)
| DList (items : list Data)
| DMap (items : list (Key * Data)).

(** The exceptions the engine meets. *)
Inductive Exn : Type :=
| KeyError
| IndexError
| TypeError
| AttributeError
| ValueError (msg : string).

(** The result of a method call: it returns, it raises, or the
    recursion does not come back within the budget of calls (Python
    ends such a run with a RecursionError). *)
Inductive Outcome (A : Type) : Type :=
| Ret (a : A)
| Raise (e : Exn)
| Diverge.

Arguments Ret {A} a.
Arguments Raise {A} e.
Arguments Diverge {A}.

Definition bind {A B : Type} (m : Outcome A) (k : A -> Outcome B) : Outcome B :=
  match m with
  | Ret a => k a
  | Raise e => Raise e
  | Diverge => Diverge
  end.

Global Instance Outcome_ret : MRet Outcome := @Ret.
Global Instance Outcome_bind : MBind Outcome := fun A B k m => bind m k.

(** [for x in xs: errors += body(x)] *)
Fixpoint for_each {A : Type} (body : A -> Outcome (list string)) (xs : list A)
  : Outcome (list string) :=
  match xs with
  | [] => Ret []
  | x :: rest =>
      errs ← body x;
      more ← for_each body rest;
      Ret (errs ++ more)
  end.

(** The double quote, newline and tab characters, for the messages that
    carry one. *)
Definition dquote : string := String "034"%char EmptyString.
Definition nl : string := String "010"%char EmptyString.
Definition tab : string := String "009"%char EmptyString.

(** [len(s)] and [s[i]] with Python's negative indices, for sequences. *)
Definition py_index {A : Type} (l : list A) (i : Z) : Exn + A :=
  let n := Z.of_nat (length l) in
  let j := if i <? 0 then i + n else i in
  if (j <? 0) || (n <=? j) then inl IndexError
  else match nth_error l (Z.to_nat j) with
       | Some x => inr x
       | None => inl IndexError
       end.

Fixpoint dict_get {A : Type} (items : list (Key * A)) (key : Key) : option A :=
  match items with
  | [] => None
  | (k, v) :: rest => if decide (k = key) then Some v else dict_get rest key
  end.

Fixpoint chars (s : string) : list string :=
  match s with
  | EmptyString => []
  | String c rest => String c EmptyString :: chars rest
  end.

(** [data[key]] *)
Definition getitem (data : Data) (key : Key) : Exn + Data :=
  match data with
  | DMap items =>
      match dict_get items key with
      | Some v => inr v
      | None => inl KeyError
      end
  | DList items =>
      match key with
      | KInt i => py_index items i
      | KStr _ => inl TypeError
      end
  | DStr s =>
      match key with
      | KInt i => match py_index (chars s) i with
                  | inr c => inr (DStr c)
                  | inl e => inl e
                  end
      | KStr _ => inl TypeError
      end
  | DNone | DBool _ | DInt _ => inl TypeError
  end.

(** [str(key)] *)
Definition str_key (k : Key) : string :=
  match k with
  | KStr s => s
  | KInt i => pretty i
  end.

(** [str(data)], as the [%s] conversions use it.  [repr] is Python's
    rendering of a container. *)
Definition py_str (repr : Data -> string) (data : Data) : string :=
  match data with
  | DNone => "None"
  | DBool true => "True"
  | DBool false => "False"
  | DInt i => pretty i
  | DStr s => s
  | DList _ | DMap _ => repr data
  end.

(** [s.split(sep)] for a separator of one character. *)
Fixpoint split (sep : ascii) (s : string) : list string :=
  match s with
  | EmptyString => [EmptyString]
  | String c rest =>
      if decide (c = sep) then EmptyString :: split sep rest
      else match split sep rest with
           | [] => [String c EmptyString]
           | w :: ws => String c w :: ws
           end
  end.

(** ** The helpers of [yamale.util] *)

(** What [util] asks of an object: whether it is a mapping or a
    sequence, and its items.  Documents and schema trees both answer. *)
Class Container (A : Type) : Type := {
  as_map : A -> option (list (Key * A));
  as_list : A -> option (list A)
}.

Global Instance Data_container : Container Data := {|
  as_map d := match d with DMap items => Some items | _ => None end;
  as_list d := match d with DList items => Some items | _ => None end
|}.

(** Modelled from the spec: [yamale/util.py] is not among the sources.
    The spec speaks of a node or a document that "is a map" or "is a
    list", of "the set of data keys" and of "every key/index" of a
    container; a string is a scalar, not a list.  An object that is
    neither a map nor a list has no keys to iterate ([None]). *)
Module util.

Definition is_map {A} `{Container A} (obj : A) : bool :=
  match as_map obj with Some _ => true | None => false end.

Definition is_list {A} `{Container A} (obj : A) : bool :=
  match as_list obj with Some _ => true | None => false end.

(** [enumerate(l)] *)
Definition enumerate {A} (l : list A) : list (Key * A) :=
  imap (fun i x => (KInt (Z.of_nat i), x)) l.

Definition get_iter {A} `{Container A} (obj : A) : option (list (Key * A)) :=
  match as_map obj with
  | Some items => Some items
  | None =>
      match as_list obj with
      | Some items => Some (enumerate items)
      | None => None
      end
  end.

Definition get_keys {A} `{Container A} (obj : A) : option (list Key) :=
  match get_iter obj with
  | Some items => Some (map fst items)
  | None => None
  end.

End util.

(** ** Paths *)

(** Modelled from the spec: [yamale/schema/datapath.py] is not among the
    sources.  A Path is "an ordered, immutable sequence of path
    segments", concatenation is its only operation, and it is rendered
    by joining the segments with a separator, here the dot.  A segment
    is whatever the path was built from: a key, or the list of strings
    that [_validate_include_if] passes. *)
Module DataPath.

Inductive Segment : Type :=
| Seg (key : Key)
| SegList (parts : list string).

Definition t : Type := list Segment.

(** [DataPath()] *)
Definition empty : t := [].

(** [DataPath(key)] *)
Definition of_key (key : Key) : t := [Seg key].

(** [DataPath(parts)], one segment that is a list *)
Definition of_list (parts : list string) : t := [SegList parts].

(** [path + other] *)
Definition add (path other : t) : t := path ++ other.

Definition str_segment (repr : Data -> string) (s : Segment) : string :=
  match s with
  | Seg key => str_key key
  | SegList parts => repr (DList (map DStr parts))
  end.

Definition sep : string := ".".

(** [str(path)] *)
Definition str (repr : Data -> string) (path : t) : string :=
  String.concat sep (map (str_segment repr) path).

End DataPath.

(** ** Validators *)

(** Modelled from the spec: [yamale/validators] is not among the
    sources.  Every validator answers [is_optional], [can_be_none] and
    [validate(value)], the list of its own errors without a path; the
    kinds are primitive, [Map], [List], [Any], [Include] and [IncludeIf],
    and "a leaf has one kind": no kind is a subclass of another.  [Map],
    [List] and [Any] carry their sub-validators, [Include] and
    [IncludeIf] the names they delegate to and their [strict] override. *)
Module val.

Record Base : Type := {
  is_optional : bool;
  can_be_none : bool;
  validate : Data -> list string
}.

Inductive Validator : Type :=
| Primitive (base : Base)
| Map (base : Base) (validators : list Validator)
| List (base : Base) (validators : list Validator)
| Any (base : Base) (validators : list Validator)
| Include (base : Base) (include_name : string) (strict : option bool)
| IncludeIf (base : Base) (if_path if_include_test then_include : string)
            (else_include : option string) (strict : option bool).

Definition base (v : Validator) : Base :=
  match v with
  | Primitive b | Map b _ | List b _ | Any b _
  | Include b _ _ | IncludeIf b _ _ _ _ _ => b
  end.

End val.

(** ** Schemas *)

(** A compiled schema tree: a literal map or list of sub-trees, or a
    validator. *)
Inductive Node : Type :=
| NMap (children : list (Key * Node))
| NList (children : list Node)
| Leaf (v : val.Validator).

Global Instance Node_container : Container Node := {|
  as_map n := match n with NMap children => Some children | _ => None end;
  as_list n := match n with NList children => Some children | _ => None end
|}.

(** [isinstance(validator, val.IncludeIf)] *)
Definition isinstance_IncludeIf (validator : Node) : bool :=
  match validator with
  | Leaf (val.IncludeIf _ _ _ _ _ _) => true
  | _ => false
  end.

(** [isinstance(validator, val.Validator) and validator.is_optional] *)
Definition is_optional_validator (validator : Node) : bool :=
  match validator with
  | Leaf v => val.is_optional (val.base v)
  | NMap _ | NList _ => false
  end.

(** A [Schema] instance.  [_root_data] is the attribute that [validate]
    sets; an instance on which [validate] was never called has none.
    The [includes] attribute is not a field: [__init__] stores the
    dictionary it is handed and [add_include] hands [self.includes] to
    every schema it registers, so an instance and the instances that
    [_validate_include] and [_validate_include_if] get from its
    dictionary all hold the same dictionary.  The engine takes it once,
    as [includes] below: it is [self.includes] of the instance on which
    the validation starts. *)
Record Schema : Type := {
  name : string;
  _schema : Node;
  _root_data : option Data
}.

(** The state that a call of [validate] can touch: the instance it is
    called on and the registry the instance shares with its includes. *)
Record Store : Type := {
  instance : Schema;
  registry : gmap string Schema
}.

(** [if errors:] *)
Definition truthy {A : Type} (l : list A) : bool :=
  match l with
  | [] => false
  | _ :: _ => true
  end.

(** [data is None] *)
Definition is_None (data : Data) : bool :=
  match data with
  | DNone => true
  | _ => false
  end.

(** ** The engine *)

Section Engine.

(** Python's [repr] of a container. *)
Variable repr : Data -> string.

(** [dpath.util.get(obj, glob)]: the value at the path, [KeyError]
    when the path does not resolve, or another exception. *)
Variable dpath_get : Data -> string -> Exn + Data.

Definition Validate : Type :=
  Schema -> Node -> Data -> DataPath.t -> bool -> Outcome (list string).

Local Abbreviation str_path := (DataPath.str repr).

Section Methods.

(** [self.includes] *)
Variable includes : gmap string Schema.

(** The recursive method, one call further into the budget. *)
Variable _validate : Validate.

Definition _validate_item (self : Schema) (validator : Node) (data : Data)
    (path : DataPath.t) (strict : bool) (key : Key) : Outcome (list string) :=
  let errors : list string := [] in
  let path := DataPath.add path (DataPath.of_key key) in
  match getitem data key with
  | inr data_item => _validate self validator data_item path strict
  | inl KeyError | inl IndexError =>
      if negb (isinstance_IncludeIf validator) then
        if is_optional_validator validator then Ret errors
        else Ret (errors ++ [str_path path +:+ ": Required field missing"])
      else
        let data_item := DNone in
        _validate self validator data_item path strict
  | inl e => Raise e
  end.

Definition _validate_primitive (validator : val.Validator) (data : Data)
    (path : DataPath.t) : list string :=
  let errors := val.validate (val.base validator) data in
  map (fun error => (str_path path +:+ ": ") +:+ error) errors.

(** A Python set has no order of its own.  The two sets of keys are
    lists without duplicates here and the difference is walked in the
    order of the keys of the data, which is the order in which CPython
    walks the indices of a list. *)
Definition _validate_static_map_list (self : Schema) (validator : Node)
    (data : Data) (path : DataPath.t) (strict : bool) : Outcome (list string) :=
  if util.is_map validator && negb (util.is_map data) then
    if is_None data then Ret [str_path path +:+ ": Required field missing"]
    else Ret [str_path path +:+ " : '" +:+ py_str repr data +:+ "' is not a map"]
  else if util.is_list validator && negb (util.is_list data) then
    Ret [str_path path +:+ " : '" +:+ py_str repr data +:+ "' is not a list"]
  else
    errors ←
      (if strict then
         match util.get_keys data, util.get_keys validator with
         | Some dkeys, Some vkeys =>
             let data_keys := remove_dups dkeys in
             let validator_keys := remove_dups vkeys in
             Ret (map (fun key =>
                         let error_path := DataPath.add path (DataPath.of_key key) in
                         str_path error_path +:+ ": Unexpected element")
                      (list_difference data_keys validator_keys))
         | _, _ => Raise TypeError
         end
       else Ret []);
    match util.get_iter validator with
    | Some items =>
        item_errors ←
          for_each (fun '(key, sub_validator) =>
                      _validate_item self sub_validator data path strict key)
                   items;
        Ret (errors ++ item_errors)
    | None => Raise TypeError
    end.

(** The inner loop of [_validate_map_list] and [_validate_any]:
    [sub_errors] collects the non-empty error lists, in order. *)
Fixpoint collect_sub_errors (check : val.Validator -> Outcome (list string))
    (validators : list val.Validator) : Outcome (list (list string)) :=
  match validators with
  | [] => Ret []
  | v :: rest =>
      err ← check v;
      sub_errors ← collect_sub_errors check rest;
      Ret (if truthy err then err :: sub_errors else sub_errors)
  end.

(** [if len(sub_errors) == len(validator.validators): errors += each] *)
Definition add_if_all_failed (sub_errors : list (list string))
    (validators : list val.Validator) : list string :=
  if Nat.eqb (length sub_errors) (length validators) then concat sub_errors
  else [].

Definition _validate_map_list (self : Schema) (validator : val.Validator)
    (data : Data) (path : DataPath.t) (strict : bool) : Outcome (list string) :=
  match validator with
  | val.Map _ validators | val.List _ validators =>
      if negb (truthy validators) then Ret []
      else
        match util.get_keys data with
        | Some keys =>
            for_each
              (fun key =>
                 sub_errors ←
                   collect_sub_errors
                     (fun v => _validate_item self (Leaf v) data path strict key)
                     validators;
                 Ret (add_if_all_failed sub_errors validators))
              keys
        | None => Raise TypeError
        end
  | _ => Raise AttributeError
  end.

Definition _validate_include (self : Schema) (validator : val.Validator)
    (data : Data) (path : DataPath.t) (strict : bool) : Outcome (list string) :=
  match validator with
  | val.Include _ include_name vstrict =>
      match includes !! include_name with
      | None => Ret ["Include '" +:+ include_name +:+ "' has not been defined."]
      | Some include_schema =>
          let strict := match vstrict with None => strict | Some s => s end in
          _validate include_schema (_schema include_schema) data path strict
      end
  | _ => Raise AttributeError
  end.

Definition _validate_include_if (self : Schema) (validator : val.Validator)
    (data : Data) (path : DataPath.t) (strict : bool) : Outcome (list string) :=
  match validator with
  | val.IncludeIf _ vif_path if_include_test then_include else_include vstrict =>
      let strict := match vstrict with None => strict | Some s => s end in
      let if_path := DataPath.of_list (split "/"%char vif_path) in
      match _root_data self with
      | None => Raise AttributeError
      | Some root_data =>
          let continue (if_data : Data) : Outcome (list string) :=
            match includes !! if_include_test with
            | None =>
                Ret ["Include '" +:+ if_include_test +:+ "' has not been defined."]
            | Some if_schema =>
                errors ← _validate if_schema (_schema if_schema) if_data if_path strict;
                let resolve (include_name : string) : Outcome (list string) :=
                  match includes !! include_name with
                  | None =>
                      Ret ["Include '" +:+ include_name +:+ "' has not been defined."]
                  | Some include_schema =>
                      _validate include_schema (_schema include_schema) data path strict
                  end in
                if truthy errors then
                  match else_include with
                  | None =>
                      if strict && negb (is_None data) then
                        Ret [str_path path +:+ ": Unexpected element"]
                      else Ret []
                  | Some include_name => resolve include_name
                  end
                else resolve then_include
            end in
          match dpath_get root_data vif_path with
          | inr if_data => continue if_data
          | inl KeyError =>
              if strict then Ret ["path '" +:+ vif_path +:+ "' does not exist."]
              else continue (DMap [])
          | inl e => Raise e
          end
      end
  | _ => Raise AttributeError
  end.

Definition _validate_any (self : Schema) (validator : val.Validator)
    (data : Data) (path : DataPath.t) (strict : bool) : Outcome (list string) :=
  match validator with
  | val.Any _ validators =>
      if negb (truthy validators) then
        Ret ["No validators specified for " +:+ dquote +:+ "any" +:+ dquote +:+ "."]
      else
        sub_errors ←
          collect_sub_errors (fun v => _validate self (Leaf v) data path strict)
                             validators;
        Ret (add_if_all_failed sub_errors validators)
  | _ => Raise AttributeError
  end.

(** The body of [Schema._validate].  The first test,
    [util.is_list(validator) or util.is_map(validator)], is the match on
    the two literal nodes; the [isinstance] tests that follow are the
    matches on the kind of the leaf: [Include] on its own, then
    [IncludeIf], [Map] or [List], [Any], in that order. *)
Definition _validate_method (self : Schema) (validator : Node) (data : Data)
    (path : DataPath.t) (strict : bool) : Outcome (list string) :=
  match validator with
  | NMap _ | NList _ =>
      _validate_static_map_list self validator data path strict
  | Leaf v =>
      if is_None data
         && val.is_optional (val.base v)
         && val.can_be_none (val.base v)
         && negb (isinstance_IncludeIf validator)
      then Ret []
      else
        let errors := _validate_primitive v data path in
        if truthy errors then Ret errors
        else
          included ←
            match v with
            | val.Include _ _ _ => _validate_include self v data path strict
            | _ => Ret []
            end;
          structural ←
            match v with
            | val.IncludeIf _ _ _ _ _ _ =>
                _validate_include_if self v data path strict
            | val.Map _ _ | val.List _ _ =>
                _validate_map_list self v data path strict
            | val.Any _ _ => _validate_any self v data path strict
            | _ => Ret []
            end;
          Ret (errors ++ included ++ structural)
  end.

End Methods.

(** [Schema._validate], with [fuel] bounding the depth of the calls of
    [_validate] within one another. *)
Fixpoint _validate (includes : gmap string Schema) (fuel : nat) : Validate :=
  match fuel with
  | O => fun _ _ _ _ _ => Diverge
  | S fuel' => _validate_method includes (_validate includes fuel')
  end.

(** [self._root_data = data] *)
Definition set_root_data (self : Schema) (data : Data) : Schema :=
  {| name := name self; _schema := _schema self; _root_data := Some data |}.

(** The message of the aggregate error. *)
Definition error_str (self : Schema) (data_name : string) (errors : list string)
  : string :=
  let header :=
    nl +:+ "Error validating data " +:+ data_name +:+ " with schema " +:+ name self in
  header +:+ (nl +:+ tab) +:+ String.concat (nl +:+ tab) errors.

(** [Schema.validate]: the store after the call, and its outcome.  The
    message is the one of Python 3 ([PY2] false: no encoding step). *)
Definition validate (fuel : nat) (st : Store) (data : Data) (data_name : string)
    (strict : bool) : Store * Outcome unit :=
  let path := DataPath.empty in
  let self := set_root_data (instance st) data in
  let st := {| instance := self; registry := registry st |} in
  (st,
   errors ← _validate (registry st) fuel self (_schema self) data path strict;
   if truthy errors then Raise (ValueError (error_str self data_name errors))
   else Ret tt).

End Engine.


(** ** The any-of rule, in the words of the specification *)

(** What a key (for a dynamic map or list) or a value (for [any])
    contributes, given the error lists [results] of its sub-validators in
    order: "if at least one sub-validator succeeds, emit nothing"; "if
    every sub-validator fails, concatenate and emit all of their error
    sets". *)
Definition any_of_errors (results : list (list string)) : list string :=
  if existsb (fun errs => negb (truthy errs)) results then [] else concat results.

(** ** Where an error was found *)

(** The three messages about the schema rather than the document. *)
Definition configuration_error (error : string) : Prop :=
  (exists include_name : string,
     error = "Include '" +:+ include_name +:+ "' has not been defined.")
  \/ error = "No validators specified for " +:+ dquote +:+ "any" +:+ dquote +:+ "."
  \/ (exists if_path : string, error = "path '" +:+ if_path +:+ "' does not exist.").

(** [data[key]] raised one of the two exceptions that [_validate_item]
    catches. *)
Definition lookup_fails (data : Data) (key : Key) : Prop :=
  getitem data key = inl KeyError \/ getitem data key = inl IndexError.

(** The sub-validators of a dynamic map or list validator. *)
Definition sub_validators (validator : Node) : option (list val.Validator) :=
  match validator with
  | Leaf (val.Map _ validators) | Leaf (val.List _ validators) => Some validators
  | _ => None
  end.

(** The calls of [_validate_item] that the validation of [data] against
    [validator] makes: with the [child] that a literal map or list
    declares under [key], or with a sub-validator of a dynamic map or
    list and a key of the data. *)
Definition checks (validator : Node) (data : Data) (key : Key) (child : Node) : Prop :=
  (exists items, util.get_iter validator = Some items /\ In (key, child) items)
  \/ (exists validators keys sub,
        sub_validators validator = Some validators
        /\ util.get_keys data = Some keys /\ In key keys
        /\ In sub validators /\ child = Leaf sub).

(** The value that [_validate_item] hands to [_validate]: the item under
    the key, or [None] for an IncludeIf when the lookup fails. *)
Definition fetched (data : Data) (key : Key) (child : Node) (item : Data) : Prop :=
  getitem data key = inr item
  \/ (lookup_fails data key /\ isinstance_IncludeIf child = true /\ item = DNone).

(** The calls of [_validate] whose errors a call can return: from the
    validator and the value of a call, the keys that the engine appends
    to the path lead to the validator and the value of a call made within
    it.  An include and an [any] hand the same value on, to the tree of
    the registered schema and to a sub-validator; an item is fetched
    under its key.  (The check of the condition of an IncludeIf is not
    among them: its errors are not returned.) *)
Inductive Visit (includes : gmap string Schema)
  : Node -> Data -> list Key -> Node -> Data -> Prop :=
| Visit_here validator data :
    Visit includes validator data [] validator data
| Visit_include base include_name vstrict include_schema data keys validator' data' :
    includes !! include_name = Some include_schema ->
    Visit includes (_schema include_schema) data keys validator' data' ->
    Visit includes (Leaf (val.Include base include_name vstrict)) data keys
          validator' data'
| Visit_include_if base if_path if_include_test then_include else_include vstrict
    include_name include_schema data keys validator' data' :
    include_name = then_include \/ else_include = Some include_name ->
    includes !! include_name = Some include_schema ->
    Visit includes (_schema include_schema) data keys validator' data' ->
    Visit includes
          (Leaf (val.IncludeIf base if_path if_include_test then_include
                               else_include vstrict))
          data keys validator' data'
| Visit_any base validators sub data keys validator' data' :
    In sub validators ->
    Visit includes (Leaf sub) data keys validator' data' ->
    Visit includes (Leaf (val.Any base validators)) data keys validator' data'
| Visit_item validator data key child item keys validator' data' :
    checks validator data key child ->
    fetched data key child item ->
    Visit includes child item keys validator' data' ->
    Visit includes validator data (key :: keys) validator' data'.

(** The errors that the call of [_validate] with [validator], [data] and
    [path] appends itself: the errors of the validator's own check, the
    "Unexpected element" of an IncludeIf without [else_include], the two
    shape errors and the "Required field missing" of a literal node, and
    the errors about one key, at the path of that key: a key of the data
    that a literal node does not declare, or a key whose lookup fails. *)
Inductive Reports (repr : Data -> string) (path : DataPath.t) (validator : Node)
    (data : Data) : string -> Prop :=
| Reports_own v message :
    validator = Leaf v ->
    In message (val.validate (val.base v) data) ->
    Reports repr path validator data (DataPath.str repr path +:+ ": " +:+ message)
| Reports_unexpected_value base if_path if_include_test then_include vstrict :
    validator = Leaf (val.IncludeIf base if_path if_include_test then_include
                                    None vstrict) ->
    data <> DNone ->
    Reports repr path validator data
            (DataPath.str repr path +:+ ": Unexpected element")
| Reports_missing :
    util.is_map validator = true ->
    data = DNone ->
    Reports repr path validator data
            (DataPath.str repr path +:+ ": Required field missing")
| Reports_not_a_map :
    util.is_map validator = true ->
    util.is_map data = false ->
    data <> DNone ->
    Reports repr path validator data
            (DataPath.str repr path +:+ " : '" +:+ py_str repr data +:+ "' is not a map")
| Reports_not_a_list :
    util.is_list validator = true ->
    util.is_list data = false ->
    Reports repr path validator data
            (DataPath.str repr path +:+ " : '" +:+ py_str repr data +:+ "' is not a list")
| Reports_unexpected_key key dkeys vkeys :
    util.get_keys data = Some dkeys ->
    util.get_keys validator = Some vkeys ->
    In key dkeys ->
    ~ In key vkeys ->
    Reports repr path validator data
            (DataPath.str repr (DataPath.add path (DataPath.of_key key))
             +:+ ": Unexpected element")
| Reports_missing_key key child :
    checks validator data key child ->
    lookup_fails data key ->
    isinstance_IncludeIf child = false ->
    is_optional_validator child = false ->
    Reports repr path validator data
            (DataPath.str repr (DataPath.add path (DataPath.of_key key))
             +:+ ": Required field missing").

(** [error], returned by the validation of [data] against [validator] at
    [path], is a configuration error, or the error of a call made within
    it, rendered with the path of that call. *)
Definition explained (repr : Data -> string) (includes : gmap string Schema)
    (validator : Node) (data : Data) (path : DataPath.t) (error : string) : Prop :=
  configuration_error error
  \/ exists (keys : list Key) (validator' : Node) (data' : Data),
       Visit includes validator data keys validator' data'
       /\ Reports repr (DataPath.add path (map DataPath.Seg keys)) validator' data' error.

(** Every error list that [rec] returns is made of such errors. *)
Definition sound (repr : Data -> string) (includes : gmap string Schema)
    (rec : Validate) : Prop :=
  forall self validator data path strict errors,
    rec self validator data path strict = Ret errors ->
    Forall (explained repr includes validator data path) errors.

(** ** Sample schemas and documents *)

(** A rendering of values (strings in single quotes, without escapes)
    and a path getter over nested maps ([/a/b] style), enough to run the
    engine on the samples. *)
Fixpoint sample_repr (data : Data) : string :=
  match data with
  | DNone => "None"
  | DBool true => "True"
  | DBool false => "False"
  | DInt i => pretty i
  | DStr s => "'" +:+ s +:+ "'"
  | DList items => "[" +:+ String.concat ", " (map sample_repr items) +:+ "]"
  | DMap items =>
      "{" +:+ String.concat ", "
                (map (fun item : Key * Data =>
                        match fst item with
                        | KStr s => "'" +:+ s +:+ "'"
                        | KInt i => pretty i
                        end +:+ ": " +:+ sample_repr (snd item))
                     items)
          +:+ "}"
  end.

Fixpoint walk (data : Data) (parts : list string) : Exn + Data :=
  match parts with
  | [] => inr data
  | part :: rest =>
      match data with
      | DMap items =>
          match dict_get items (KStr part) with
          | Some v => walk v rest
          | None => inl KeyError
          end
      | _ => inl KeyError
      end
  end.

Definition sample_get (root : Data) (glob : string) : Exn + Data :=
  walk root (filter (fun part => part <> EmptyString) (split "/"%char glob)).

(** [str()], [int()] and their optional variants.  A Python [bool] is an
    [int]: [int()] takes [True] and [False]. *)
Definition str_ (required : bool) : val.Validator :=
  val.Primitive {|
    val.is_optional := negb required;
    val.can_be_none := true;
    val.validate data :=
      match data with
      | DStr _ => []
      | _ => ["'" +:+ py_str sample_repr data +:+ "' is not a str."]
      end
  |}.

Definition int_ (required : bool) : val.Validator :=
  val.Primitive {|
    val.is_optional := negb required;
    val.can_be_none := true;
    val.validate data :=
      match data with
      | DInt _ | DBool _ => []
      | _ => ["'" +:+ py_str sample_repr data +:+ "' is not a int."]
      end
  |}.

(** The base of a composite validator: [validate] accepts everything. *)
Definition composite (required : bool) : val.Base :=
  {| val.is_optional := negb required;
     val.can_be_none := true;
     val.validate _ := [] |}.

Definition schema_of (schema_name : string) (tree : Node) : Schema :=
  {| name := schema_name; _schema := tree; _root_data := None |}.

(** The schema [{a: str()}] and the document [{a: "x", b: 1}]. *)
Definition schema_a : Schema := schema_of "" (NMap [(KStr "a", Leaf (str_ true))]).
Definition data_a_b : Data := DMap [(KStr "a", DStr "x"); (KStr "b", DInt 1)].

(** [enum(word)] *)
Definition enum_ (word : string) : val.Validator :=
  val.Primitive {|
    val.is_optional := false;
    val.can_be_none := true;
    val.validate data :=
      match data with
      | DStr s => if decide (s = word) then [] else ["'" +:+ s +:+ "' not in enum"]
      | _ => ["'" +:+ py_str sample_repr data +:+ "' not in enum"]
      end
  |}.

(** A registry of three includes, a schema whose [value] depends on its
    [type], and two documents for it. *)
Definition sample_includes : gmap string Schema :=
  list_to_map [("is_a", schema_of "is_a" (Leaf (enum_ "a")));
               ("an_int", schema_of "an_int" (Leaf (int_ true)));
               ("a_str", schema_of "a_str" (Leaf (str_ true)))].

Definition value_if (else_include : option string) : val.Validator :=
  val.IncludeIf (composite true) "/type" "is_a" "an_int" else_include None.

Definition schema_typed : Schema :=
  schema_of "typed" (NMap [(KStr "type", Leaf (str_ true));
                           (KStr "value", Leaf (value_if (Some "a_str")))]).

Definition doc_a_5 : Data := DMap [(KStr "type", DStr "a"); (KStr "value", DInt 5)].
Definition doc_b_5 : Data := DMap [(KStr "type", DStr "b"); (KStr "value", DInt 5)].

(** [map(int(), str())], [any(int(), str())], [any()] and [include('nope')]. *)
Definition map_int_str : val.Validator :=
  val.Map (composite true) [int_ true; str_ true].
Definition any_int_str : val.Validator :=
  val.Any (composite true) [int_ true; str_ true].
Definition any_nothing : val.Validator := val.Any (composite true) [].
Definition include_nope : val.Validator := val.Include (composite true) "nope" None.
Definition doc_x_none : Data := DMap [(KStr "a", DStr "x"); (KStr "b", DNone)].


(** ** The schema compiler *)

(** A raw schema, as [Schema(schema_dict)] and [add_include] receive it:
    nested maps and lists whose leaves are the expressions of the
    validator syntax. *)
Inductive Raw : Type :=
| RExpr (expression : string)
| RMap (items : list (Key * Raw))
| RList (items : list Raw).

Section Compiler.

(** Python's [repr] of a container, for the rendering of paths. *)
Variable repr : Data -> string.

(** [syntax.parse(expression, validators)]: the validator, or the
    message of the [SyntaxError] it raises. *)
Variable parse : string -> string + val.Validator.

(** The result of a call that can raise a [SyntaxError]: its message on
    the left. *)
Definition _parse_schema_item (path : DataPath.t) (expression : string)
  : string + val.Validator :=
  match parse expression with
  | inr validator => inr validator
  | inl e => inl (e +:+ " at node '" +:+ DataPath.str repr path +:+ "'")
  end.

Section Items.

Context {A : Type}.

(** The call of [_process_schema] on the item under [key]. *)
Variable process : Key -> A -> string + Node.

(** [for key, data in schema_data.items(): schema_data[key] = ...] *)
Fixpoint process_items (items : list (Key * A)) : string + list (Key * Node) :=
  match items with
  | [] => inr []
  | (key, data) :: rest =>
      match process key data with
      | inl e => inl e
      | inr node =>
          match process_items rest with
          | inl e => inl e
          | inr nodes => inr ((key, node) :: nodes)
          end
      end
  end.

(** [for key, data in enumerate(schema_data): schema_data[key] = ...],
    from the index [i] on. *)
Fixpoint process_sequence (i : nat) (items : list A) : string + list Node :=
  match items with
  | [] => inr []
  | data :: rest =>
      match process (KInt (Z.of_nat i)) data with
      | inl e => inl e
      | inr node =>
          match process_sequence (S i) rest with
          | inl e => inl e
          | inr nodes => inr (node :: nodes)
          end
      end
  end.

End Items.

(** [Schema._process_schema].  The method assigns the compiled children
    into [schema_data] itself and returns it: the result below is both
    the value returned and the content of the caller's object after a
    call that does not raise. *)
Fixpoint _process_schema (path : DataPath.t) (schema_data : Raw) : string + Node :=
  match schema_data with
  | RMap items =>
      match process_items
              (fun key data =>
                 _process_schema (DataPath.add path (DataPath.of_key key)) data)
              items with
      | inl e => inl e
      | inr children => inr (NMap children)
      end
  | RList items =>
      match process_sequence
              (fun key data =>
                 _process_schema (DataPath.add path (DataPath.of_key key)) data)
              0 items with
      | inl e => inl e
      | inr children => inr (NList children)
      end
  | RExpr expression =>
      match _parse_schema_item path expression with
      | inl e => inl e
      | inr validator => inr (Leaf validator)
      end
  end.

(** [Schema.__init__]: the new instance, without a [_root_data]
    attribute.  Its [includes] is the registry handed in, or a new empty
    one. *)
Definition Schema_init (schema_dict : Raw) (schema_name : string) : string + Schema :=
  match _process_schema DataPath.empty schema_dict with
  | inl e => inl e
  | inr tree => inr {| name := schema_name; _schema := tree; _root_data := None |}
  end.

(** [Schema.add_include], on the shared registry: the registry after
    the call and the message of the [SyntaxError] if one was raised.
    [type_dict] lists the items of the dictionary in order. *)
Fixpoint add_include (includes : gmap string Schema) (type_dict : list (string * Raw))
  : gmap string Schema * option string :=
  match type_dict with
  | [] => (includes, None)
  | (include_name, custom_type) :: rest =>
      match Schema_init custom_type include_name with
      | inl e => (includes, Some e)
      | inr t => add_include (<[include_name := t]> includes) rest
      end
  end.

(** What compiling means, leaf by leaf: the tree has the shape of the raw
    schema, with the same keys in the same order, and each leaf is the
    validator that [parse] gives for the expression at that place. *)
Inductive compiled : Raw -> Node -> Prop :=
| compiled_expr expression validator :
    parse expression = inr validator ->
    compiled (RExpr expression) (Leaf validator)
| compiled_map items children :
    Forall2 (fun item child => fst item = fst child /\ compiled (snd item) (snd child))
            items children ->
    compiled (RMap items) (NMap children)
| compiled_list items children :
    Forall2 compiled items children ->
    compiled (RList items) (NList children).

End Compiler.


(** ** Measures of a schema tree *)

(** The number of calls of [_validate] within one another that a leaf
    needs when it delegates to no include. *)
Fixpoint validator_depth (v : val.Validator) : nat :=
  match v with
  | val.Map _ validators | val.List _ validators | val.Any _ validators =>
      S (max_list_with validator_depth validators)
  | _ => 1
  end.

Fixpoint depth (validator : Node) : nat :=
  match validator with
  | NMap children => S (max_list_with (fun child => depth (snd child)) children)
  | NList children => S (max_list_with depth children)
  | Leaf v => validator_depth v
  end.

(** No [Include] and no [IncludeIf] in a validator, or in a tree. *)
Fixpoint validator_include_free (v : val.Validator) : bool :=
  match v with
  | val.Primitive _ => true
  | val.Map _ validators | val.List _ validators | val.Any _ validators =>
      forallb validator_include_free validators
  | val.Include _ _ _ | val.IncludeIf _ _ _ _ _ _ => false
  end.

Fixpoint include_free (validator : Node) : bool :=
  match validator with
  | NMap children => forallb (fun child => include_free (snd child)) children
  | NList children => forallb include_free children
  | Leaf v => validator_include_free v
  end.

(** No [IncludeIf] in a validator, or in a tree (the includes it names
    are not followed). *)
Fixpoint validator_unconditional (v : val.Validator) : bool :=
  match v with
  | val.Primitive _ | val.Include _ _ _ => true
  | val.Map _ validators | val.List _ validators | val.Any _ validators =>
      forallb validator_unconditional validators
  | val.IncludeIf _ _ _ _ _ _ => false
  end.

Fixpoint unconditional (validator : Node) : bool :=
  match validator with
  | NMap children => forallb (fun child => unconditional (snd child)) children
  | NList children => forallb unconditional children
  | Leaf v => validator_unconditional v
  end.

(** The instance with another root document bound on it, or with none. *)
Definition rebound (self : Schema) (root : option Data) : Schema :=
  {| name := name self; _schema := _schema self; _root_data := root |}.

(** The optional-and-nullable guard at the top of [_validate]. *)
Definition skipped (v : val.Validator) (data : Data) : bool :=
  is_None data
  && val.is_optional (val.base v)
  && val.can_be_none (val.base v)
  && negb (isinstance_IncludeIf (Leaf v)).

(** [o] is the outcome of a run that came back, and [o'] the outcome of
    the same call with a larger budget. *)
Definition settles {A : Type} (o o' : Outcome A) : Prop :=
  o = Diverge \/ o' = o.

(** ** More samples *)

(** The schema [{a: {b: str()}, x: include('nope')}] and the document
    [{a: {b: 1}, x: 2}]. *)
Definition tree_nested : Node :=
  NMap [(KStr "a", NMap [(KStr "b", Leaf (str_ true))]);
        (KStr "x", Leaf (val.Include (composite true) "nope" None))].
Definition doc_nested : Data :=
  DMap [(KStr "a", DMap [(KStr "b", DInt 1)]); (KStr "x", DInt 2)].

(** [map(str())] whose own check wants a map, as the validators of the
    library have it. *)
Definition map_of_str : val.Validator :=
  val.Map {| val.is_optional := false;
             val.can_be_none := true;
             val.validate data :=
               match data with
               | DMap _ => []
               | _ => ["'" +:+ py_str sample_repr data +:+ "' is not a map."]
               end |}
          [str_ true].

(** A registry in which [loop] is an include of itself. *)
Definition include_loop : val.Validator := val.Include (composite true) "loop" None.
Definition looping_includes : gmap string Schema :=
  list_to_map [("loop", schema_of "loop" (Leaf include_loop))].

(** A parser of five expressions. *)
Definition sample_parse (expression : string) : string + val.Validator :=
  if decide (expression = "str()") then inr (str_ true)
  else if decide (expression = "int()") then inr (int_ true)
  else if decide (expression = "str(required=False)") then inr (str_ false)
  else if decide (expression = "include('an_int')") then
    inr (val.Include (composite true) "an_int" None)
  else if decide (expression = "include_if('/type', 'is_a', 'an_int')") then
    inr (value_if None)
  else inl ("Invalid schema expression: '" +:+ expression +:+ "'").

Definition raw_good : Raw :=
  RMap [(KStr "a", RExpr "str()"); (KStr "b", RList [RExpr "int()"])].
Definition tree_good : Node :=
  NMap [(KStr "a", Leaf (str_ true)); (KStr "b", NList [Leaf (int_ true)])].

(** The includes [{an_int: int(), a_str: str()}] and
    [{cond: include_if('/type', 'is_a', 'an_int')}]. *)
Definition types_int_str : list (string * Raw) :=
  [("an_int", RExpr "int()"); ("a_str", RExpr "str()")].
Definition types_cond : list (string * Raw) :=
  [("cond", RExpr "include_if('/type', 'is_a', 'an_int')")].

(** ** Properties of the engine *)

Section Properties.

Variable repr : Data -> string.
Variable dpath_get : Data -> string -> Exn + Data.
Variable includes : gmap string Schema.

Lemma _validate_item_lookup_fails (rec : Validate) self validator data path strict key :
  lookup_fails data key ->
  _validate_item repr rec self validator data path strict key =
    if isinstance_IncludeIf validator then
      rec self validator DNone (DataPath.add path (DataPath.of_key key)) strict
    else if is_optional_validator validator then Ret []
    else Ret [DataPath.str repr (DataPath.add path (DataPath.of_key key))
              +:+ ": Required field missing"].
Proof.
  intros Hfail. unfold _validate_item.
  destruct Hfail as [-> | ->];
    destruct (isinstance_IncludeIf validator); simpl;
    destruct (is_optional_validator validator); reflexivity.
Qed.

(** C4: when the lookup of a declared key fails, an IncludeIf validator
    is entered with the value [None] and its result is returned as it is,
    an optional validator yields no error, and any other validator yields
    exactly "<path>: Required field missing" at the key's path. *)
Theorem validate_item_missing_key (fuel : nat) self validator data path strict key :
  lookup_fails data key ->
  let item_path := DataPath.add path (DataPath.of_key key) in
  let result :=
    _validate_item repr (_validate repr dpath_get includes fuel)
                   self validator data path strict key in
  (isinstance_IncludeIf validator = true ->
   result = _validate repr dpath_get includes fuel self validator DNone item_path strict)
  /\ (isinstance_IncludeIf validator = false ->
      is_optional_validator validator = true ->
      result = Ret [])
  /\ (isinstance_IncludeIf validator = false ->
      is_optional_validator validator = false ->
      result = Ret [DataPath.str repr item_path +:+ ": Required field missing"]).
Proof.
  intros Hfail item_path result. subst result item_path.
  rewrite (_validate_item_lookup_fails _ _ _ _ _ _ _ Hfail).
  repeat split; intros H; try intros H'; rewrite H; try rewrite H'; reflexivity.
Qed.

(** C10: a declared child that is itself a literal map or list is never
    optional: a failed lookup of its key always yields
    "<path>: Required field missing". *)
Theorem validate_item_missing_composite (fuel : nat) self validator data path strict key :
  util.is_map validator || util.is_list validator = true ->
  lookup_fails data key ->
  _validate_item repr (_validate repr dpath_get includes fuel)
                 self validator data path strict key =
    Ret [DataPath.str repr (DataPath.add path (DataPath.of_key key))
         +:+ ": Required field missing"].
Proof.
  intros Hcomposite Hfail.
  rewrite (_validate_item_lookup_fails _ _ _ _ _ _ _ Hfail).
  destruct validator as [children | children | v]; [reflexivity | reflexivity |].
  discriminate Hcomposite.
Qed.

(** C5: a leaf validator that is optional and nullable and is not an
    IncludeIf accepts [None] without any check: whatever its own
    [validate] would answer and whatever its kind, the result is the
    empty list, and no nested call of [_validate] is needed for it (a
    budget of one call suffices). *)
Theorem validate_optional_none (fuel : nat) self (v : val.Validator) path strict :
  val.is_optional (val.base v) = true ->
  val.can_be_none (val.base v) = true ->
  isinstance_IncludeIf (Leaf v) = false ->
  _validate repr dpath_get includes (S fuel) self (Leaf v) DNone path strict = Ret [].
Proof.
  intros Hopt Hnone Hkind. cbn [_validate]. unfold _validate_method.
  rewrite Hopt, Hnone, Hkind. reflexivity.
Qed.

(** C2: what the code does for a static list node and the value [None]:
    the error is "<path> : 'None' is not a list", not
    "<path>: Required field missing". *)
Theorem validate_static_list_none (fuel : nat) self (children : list Node) path strict :
  _validate repr dpath_get includes (S fuel) self (NList children) DNone path strict =
    Ret [DataPath.str repr path +:+ " : 'None' is not a list"].
Proof. reflexivity. Qed.

(** The map case next to it does tell [None] apart. *)
Lemma validate_static_map_none (fuel : nat) self (children : list (Key * Node)) path strict :
  _validate repr dpath_get includes (S fuel) self (NMap children) DNone path strict =
    Ret [DataPath.str repr path +:+ ": Required field missing"].
Proof. reflexivity. Qed.

(** *** The loops *)

Lemma for_each_results {A : Type} (body : A -> Outcome (list string))
    (xs : list A) (results : list (list string)) :
  Forall2 (fun x errs => body x = Ret errs) xs results ->
  for_each body xs = Ret (concat results).
Proof.
  induction 1 as [| x errs xs results Hx _ IH]; [reflexivity |].
  cbn [for_each]. rewrite Hx, IH. reflexivity.
Qed.

Lemma filter_truthy_length {A : Type} (results : list (list A)) :
  (length (List.filter truthy results) <= length results)%nat.
Proof.
  induction results as [| errs results IH]; simpl; [lia |].
  destruct (truthy errs); simpl; lia.
Qed.

Lemma filter_truthy_all {A : Type} (results : list (list A)) :
  existsb (fun errs => negb (truthy errs)) results = false ->
  List.filter truthy results = results.
Proof.
  induction results as [| errs results IH]; [reflexivity |].
  simpl. intros Hex. apply orb_false_elim in Hex as [Herrs Hex].
  apply negb_false_iff in Herrs. rewrite Herrs, (IH Hex). reflexivity.
Qed.

Lemma filter_truthy_some {A : Type} (results : list (list A)) :
  existsb (fun errs => negb (truthy errs)) results = true ->
  (length (List.filter truthy results) < length results)%nat.
Proof.
  induction results as [| errs results IH]; [discriminate |].
  simpl. pose proof (filter_truthy_length results) as Hle.
  destruct (truthy errs); simpl; [| lia].
  intros Hex. specialize (IH Hex). lia.
Qed.

Lemma add_if_all_failed_any_of (results : list (list string))
    (validators : list val.Validator) :
  length validators = length results ->
  add_if_all_failed (List.filter truthy results) validators = any_of_errors results.
Proof.
  intros Hlen. unfold add_if_all_failed, any_of_errors. rewrite Hlen.
  destruct (existsb _ results) eqn:Hex.
  - apply filter_truthy_some in Hex.
    destruct (Nat.eqb_spec (length (List.filter truthy results)) (length results));
      [lia | reflexivity].
  - rewrite (filter_truthy_all _ Hex), Nat.eqb_refl. reflexivity.
Qed.

Lemma collect_sub_errors_results (check : val.Validator -> Outcome (list string))
    (validators : list val.Validator) (results : list (list string)) :
  Forall2 (fun v errs => check v = Ret errs) validators results ->
  collect_sub_errors check validators = Ret (List.filter truthy results).
Proof.
  induction 1 as [| v errs validators results Hv _ IH]; [reflexivity |].
  simpl. rewrite Hv. simpl. rewrite IH. simpl.
  destruct (truthy errs); reflexivity.
Qed.

Lemma any_of_loop (check : val.Validator -> Outcome (list string))
    (validators : list val.Validator) (results : list (list string)) :
  Forall2 (fun v errs => check v = Ret errs) validators results ->
  (sub_errors ← collect_sub_errors check validators;
   Ret (add_if_all_failed sub_errors validators)) = Ret (any_of_errors results).
Proof.
  intros Hall. rewrite (collect_sub_errors_results _ _ _ Hall). simpl.
  f_equal. apply add_if_all_failed_any_of. eapply Forall2_length, Hall.
Qed.

Lemma any_of_errors_success (results : list (list string)) :
  In [] results -> any_of_errors results = [].
Proof.
  intros Hin. unfold any_of_errors.
  replace (existsb _ results) with true; [reflexivity |].
  symmetry. apply existsb_exists. exists []. split; [exact Hin | reflexivity].
Qed.

Lemma any_of_errors_failure (results : list (list string)) :
  Forall (fun errs => errs <> []) results -> any_of_errors results = concat results.
Proof.
  intros Hall. unfold any_of_errors.
  replace (existsb _ results) with false; [reflexivity |].
  symmetry. apply not_true_is_false. intros Hex.
  apply existsb_exists in Hex as (errs & Hin & Hempty).
  rewrite Forall_forall in Hall. apply list_elem_of_In in Hin.
  specialize (Hall errs Hin). destruct errs; [congruence | discriminate].
Qed.

(** C7: a dynamic map or list validator without sub-validators accepts
    every document; with sub-validators, when each sub-validator returns
    its error list for each key of the document, a key for which some
    sub-validator returns no error contributes nothing, and a key for
    which all of them fail contributes all their errors, concatenated in
    order. *)
Theorem validate_map_list_any_of (fuel : nat) self (v : val.Validator) base
    (validators : list val.Validator) data path strict :
  v = val.Map base validators \/ v = val.List base validators ->
  let check key sub :=
    _validate_item repr (_validate repr dpath_get includes fuel)
                   self (Leaf sub) data path strict key in
  let result :=
    _validate_map_list repr (_validate repr dpath_get includes fuel)
                       self v data path strict in
  (validators = [] -> result = Ret [])
  /\ (validators <> [] ->
      forall (keys : list Key) (results : list (list (list string))),
        util.get_keys data = Some keys ->
        Forall2 (fun key per_key =>
                   Forall2 (fun sub errs => check key sub = Ret errs) validators per_key)
                keys results ->
        result = Ret (concat (map any_of_errors results))
        /\ Forall (fun per_key =>
                     (In [] per_key -> any_of_errors per_key = [])
                     /\ (Forall (fun errs => errs <> []) per_key ->
                         any_of_errors per_key = concat per_key))
                  results).
Proof.
  intros Hkind check result.
  assert (Hresult : result =
            if negb (truthy validators) then Ret []
            else match util.get_keys data with
                 | Some keys =>
                     for_each
                       (fun key =>
                          sub_errors ← collect_sub_errors (check key) validators;
                          Ret (add_if_all_failed sub_errors validators))
                       keys
                 | None => Raise TypeError
                 end)
    by (subst result; destruct Hkind as [-> | ->]; reflexivity).
  split.
  - intros ->. exact Hresult.
  - intros Hsome keys results Hkeys Hall.
    split.
    + rewrite Hresult, Hkeys.
      destruct validators as [| sub validators']; [congruence |].
      cbn [truthy negb]. apply for_each_results.
      clear Hresult Hkeys Hsome.
      induction Hall as [| key per_key keys results Hkey _ IH]; constructor.
      * apply any_of_loop. exact Hkey.
      * exact IH.
    + apply Forall_forall. intros per_key _. split.
      * apply any_of_errors_success.
      * apply any_of_errors_failure.
Qed.

(** C8: an [any] validator without sub-validators yields exactly the
    error [No validators specified for "any".] (the word any in double
    quotes); with sub-validators, each checked by the full recursion,
    the result is empty when one of them returns no error and is the
    concatenation of all their errors when all of them fail. *)
Theorem validate_any_rule (fuel : nat) self base (validators : list val.Validator)
    data path strict :
  let result :=
    _validate_any (_validate repr dpath_get includes fuel)
                  self (val.Any base validators) data path strict in
  (validators = [] ->
   result = Ret ["No validators specified for " +:+ dquote +:+ "any" +:+ dquote +:+ "."])
  /\ (validators <> [] ->
      forall results : list (list string),
        Forall2 (fun sub errs =>
                   _validate repr dpath_get includes fuel self (Leaf sub) data path strict
                   = Ret errs)
                validators results ->
        (In [] results -> result = Ret [])
        /\ (Forall (fun errs => errs <> []) results -> result = Ret (concat results))).
Proof.
  intros result. split.
  - intros ->. reflexivity.
  - intros Hsome results Hall.
    assert (Hresult : result = Ret (any_of_errors results)).
    { subst result. unfold _validate_any.
      destruct validators as [| sub validators']; [congruence |].
      cbn [truthy negb]. apply any_of_loop. exact Hall. }
    rewrite Hresult. split; intros H.
    + rewrite any_of_errors_success; auto.
    + rewrite any_of_errors_failure; auto.
Qed.

(** C1: the conditional include.  With the root document bound on the
    instance and [strict'] the effective strict flag (the validator's
    override when it has one, the caller's flag otherwise): when the
    lookup of [if_path] in the root document fails under strict mode the
    result is exactly "path '<if_path>' does not exist."; otherwise the
    looked-up value (the empty map when the lookup fails under lenient
    mode) is checked against the registered test schema, and the errors
    of that check only choose the branch: no error of the check means
    [then_include], an error means [else_include], and without an
    [else_include] the result is "<path>: Unexpected element" under
    strict mode for data that is not [None], and empty under lenient
    mode. *)
Theorem validate_include_if_rule (fuel : nat) self base
    (if_path if_include_test then_include : string) (else_include : option string)
    (vstrict : option bool) data path strict root_data :
  _root_data self = Some root_data ->
  let rec := _validate repr dpath_get includes fuel in
  let strict' := match vstrict with None => strict | Some s => s end in
  let result :=
    _validate_include_if repr dpath_get includes rec self
      (val.IncludeIf base if_path if_include_test then_include else_include vstrict)
      data path strict in
  let resolve (include_name : string) :=
    match includes !! include_name with
    | None => Ret ["Include '" +:+ include_name +:+ "' has not been defined."]
    | Some include_schema =>
        rec include_schema (_schema include_schema) data path strict'
    end in
  (dpath_get root_data if_path = inl KeyError -> strict' = true ->
   result = Ret ["path '" +:+ if_path +:+ "' does not exist."])
  /\ (forall (if_data : Data) (if_schema : Schema) (condition_errors : list string),
        dpath_get root_data if_path = inr if_data
        \/ (dpath_get root_data if_path = inl KeyError
            /\ strict' = false /\ if_data = DMap []) ->
        includes !! if_include_test = Some if_schema ->
        rec if_schema (_schema if_schema) if_data
            (DataPath.of_list (split "/"%char if_path)) strict'
        = Ret condition_errors ->
        (condition_errors = [] -> result = resolve then_include)
        /\ (condition_errors <> [] ->
            match else_include with
            | Some include_name => result = resolve include_name
            | None =>
                (strict' = true -> data <> DNone ->
                 result = Ret [DataPath.str repr path +:+ ": Unexpected element"])
                /\ (strict' = false -> result = Ret [])
            end)).
Proof.
  intros Hroot rec strict' result resolve.
  subst result. unfold _validate_include_if. rewrite Hroot.
  fold strict'. split.
  - intros -> ->. reflexivity.
  - intros if_data if_schema condition_errors Hlookup Htest Hcheck.
    assert (Hcontinue :
      match dpath_get root_data if_path with
      | inr d => d = if_data
      | inl KeyError => strict' = false /\ if_data = DMap []
      | inl _ => False
      end).
    { destruct Hlookup as [-> | (-> & -> & ->)]; [reflexivity | split; reflexivity]. }
    destruct (dpath_get root_data if_path) as [e | d].
    + destruct e; try contradiction. destruct Hcontinue as [-> ->].
      rewrite Htest. fold rec. rewrite Hcheck.
      split.
      * intros ->. reflexivity.
      * intros Hsome. destruct condition_errors as [| e errs]; [congruence |].
        destruct else_include; [reflexivity |].
        split; [intros Hstrict; discriminate Hstrict | reflexivity].
    + subst d. rewrite Htest. fold rec. rewrite Hcheck.
      split.
      * intros ->. reflexivity.
      * intros Hsome. destruct condition_errors as [| e errs]; [congruence |].
        destruct else_include; [reflexivity |].
        split.
        -- intros -> Hdata. destruct data; try reflexivity. congruence.
        -- intros ->. reflexivity.
Qed.

(** C6: a static map node against a map document.  In strict mode the
    result starts with one "Unexpected element" error, at the key's
    path, for each key of the document that the schema does not declare
    ([extra] lists each such key once), followed by the errors of the
    declared keys; in lenient mode the result is the errors of the
    declared keys alone.  For the schema [{a: str()}] and the document
    [{a: "x", b: 1}], strict validation yields exactly
    "b: Unexpected element" and lenient validation yields nothing. *)
Theorem validate_static_map_unexpected (fuel : nat) self
    (children : list (Key * Node)) (items : list (Key * Data)) path :
  let declared (strict : bool) :=
    for_each (fun '(key, sub_validator) =>
                _validate_item repr (_validate repr dpath_get includes fuel)
                               self sub_validator (DMap items) path strict key)
             children in
  (exists extra : list Key,
     NoDup extra
     /\ (forall key : Key,
          key ∈ extra <-> key ∈ map fst items /\ key ∉ map fst children)
     /\ _validate repr dpath_get includes (S fuel) self (NMap children) (DMap items)
                  path true
        = (item_errors ← declared true;
           Ret (map (fun key =>
                       DataPath.str repr (DataPath.add path (DataPath.of_key key))
                       +:+ ": Unexpected element") extra
                ++ item_errors)))
  /\ _validate repr dpath_get includes (S fuel) self (NMap children) (DMap items)
                path false
     = declared false
  /\ _validate repr dpath_get includes 2 schema_a (_schema schema_a) data_a_b
                DataPath.empty true
     = Ret ["b: Unexpected element"]
  /\ _validate repr dpath_get includes 2 schema_a (_schema schema_a) data_a_b
                DataPath.empty false
     = Ret [].
Proof.
  intros declared. split; [| split; [| split]].
  - exists (list_difference (remove_dups (map fst items))
                            (remove_dups (map fst children))).
    split; [apply NoDup_list_difference, NoDup_remove_dups |]. split.
    + intros key. rewrite list_elem_of_difference, !elem_of_remove_dups. reflexivity.
    + reflexivity.
  - subst declared. cbn [_validate]. unfold _validate_method, _validate_static_map_list.
    cbn. destruct (for_each _ children) as [errs | e |]; reflexivity.
  - vm_compute. reflexivity.
  - vm_compute. reflexivity.
Qed.

(** C9: a call of [validate] leaves the schema tree, the name and the
    includes registry as they were; it raises the aggregate error exactly
    when the recursive validation returns a non-empty error list (and
    returns normally exactly when that list is empty); and the root
    document it binds stays bound on the instance after the call,
    whether the call returns or raises. *)
Theorem validate_frame (fuel : nat) (st : Store) data (data_name : string) strict :
  let st' := fst (validate repr dpath_get fuel st data data_name strict) in
  let outcome := snd (validate repr dpath_get fuel st data data_name strict) in
  let self := set_root_data (instance st) data in
  let recursion :=
    _validate repr dpath_get (registry st) fuel self (_schema (instance st)) data
              DataPath.empty strict in
  _schema (instance st') = _schema (instance st)
  /\ name (instance st') = name (instance st)
  /\ registry st' = registry st
  /\ _root_data (instance st') = Some data
  /\ outcome = match recursion with
               | Ret [] => Ret tt
               | Ret errors => Raise (ValueError (error_str self data_name errors))
               | Raise e => Raise e
               | Diverge => Diverge
               end
  /\ (forall errors : list string,
        recursion = Ret errors ->
        (outcome = Raise (ValueError (error_str self data_name errors)) <-> errors <> [])
        /\ (outcome = Ret tt <-> errors = [])).
Proof.
  intros st' outcome self recursion.
  assert (Houtcome : outcome = match recursion with
                               | Ret [] => Ret tt
                               | Ret errors =>
                                   Raise (ValueError (error_str self data_name errors))
                               | Raise e => Raise e
                               | Diverge => Diverge
                               end).
  { subst outcome recursion. unfold validate. cbn [snd registry].
    destruct (_validate _ _ _ _ _ _ _ _ _) as [[| e errs] | e |]; reflexivity. }
  do 4 (split; [reflexivity |]). split; [exact Houtcome |].
  intros errors Hrec. rewrite Houtcome, Hrec. split; split.
  - intros Hraise ->. discriminate Hraise.
  - intros Hsome. destruct errors; [congruence | reflexivity].
  - intros Hret. destruct errors; [reflexivity | discriminate].
  - intros ->. reflexivity.
Qed.

(** *** Errors carry their path *)

Lemma bind_Ret_inv {A B : Type} (m : Outcome A) (k : A -> Outcome B) (b : B) :
  (m ≫= k) = Ret b -> exists a, m = Ret a /\ k a = Ret b.
Proof.
  destruct m as [a | e |]; cbn; intros H; [eauto | discriminate H ..].
Qed.

Lemma string_app_assoc (a b c : string) : (a +:+ b) +:+ c = a +:+ b +:+ c.
Proof.
  induction a as [| ch a IH]; [reflexivity |].
  change (String ch ((a +:+ b) +:+ c) = String ch (a +:+ b +:+ c)).
  rewrite IH. reflexivity.
Qed.

Lemma explained_here validator data path error :
  Reports repr path validator data error ->
  explained repr includes validator data path error.
Proof.
  intros H. right. exists [], validator, data. split; [constructor |].
  unfold DataPath.add. cbn [map]. rewrite app_nil_r. exact H.
Qed.

Lemma explained_item validator data key child item path error :
  checks validator data key child ->
  fetched data key child item ->
  explained repr includes child item (DataPath.add path (DataPath.of_key key)) error ->
  explained repr includes validator data path error.
Proof.
  intros Hchecks Hfetched [H | (keys & validator' & data' & Hvisit & Hreports)];
    [left; exact H | right].
  exists (key :: keys), validator', data'.
  split; [eapply Visit_item; eassumption |].
  unfold DataPath.add, DataPath.of_key in *. cbn [map].
  rewrite <- app_assoc in Hreports. exact Hreports.
Qed.

Lemma explained_include base include_name vstrict include_schema data path error :
  includes !! include_name = Some include_schema ->
  explained repr includes (_schema include_schema) data path error ->
  explained repr includes (Leaf (val.Include base include_name vstrict)) data path error.
Proof.
  intros Hregistered [H | (keys & validator' & data' & Hvisit & Hreports)];
    [left; exact H | right].
  exists keys, validator', data'. split; [| exact Hreports].
  eapply Visit_include; eassumption.
Qed.

Lemma explained_include_if base if_path if_include_test then_include else_include vstrict
    include_name include_schema data path error :
  include_name = then_include \/ else_include = Some include_name ->
  includes !! include_name = Some include_schema ->
  explained repr includes (_schema include_schema) data path error ->
  explained repr includes
    (Leaf (val.IncludeIf base if_path if_include_test then_include else_include vstrict))
    data path error.
Proof.
  intros Hbranch Hregistered [H | (keys & validator' & data' & Hvisit & Hreports)];
    [left; exact H | right].
  exists keys, validator', data'. split; [| exact Hreports].
  eapply Visit_include_if; eassumption.
Qed.

Lemma explained_any base validators sub data path error :
  In sub validators ->
  explained repr includes (Leaf sub) data path error ->
  explained repr includes (Leaf (val.Any base validators)) data path error.
Proof.
  intros Hin [H | (keys & validator' & data' & Hvisit & Hreports)];
    [left; exact H | right].
  exists keys, validator', data'. split; [| exact Hreports].
  eapply Visit_any; eassumption.
Qed.

Lemma for_each_Forall {A : Type} (Q : string -> Prop)
    (body : A -> Outcome (list string)) (xs : list A) :
  (forall x errs, In x xs -> body x = Ret errs -> Forall Q errs) ->
  forall errors, for_each body xs = Ret errors -> Forall Q errors.
Proof.
  induction xs as [| x xs IH]; intros Hbody; cbn [for_each]; intros errors H.
  - injection H as <-. constructor.
  - apply bind_Ret_inv in H as (errs & Hx & H).
    apply bind_Ret_inv in H as (more & Hxs & H).
    injection H as <-. apply Forall_app. split.
    + eapply Hbody; [left; reflexivity | exact Hx].
    + apply IH; [| exact Hxs]. intros y errs' Hy. apply Hbody. right. exact Hy.
Qed.

Lemma collect_sub_errors_Forall (Q : string -> Prop)
    (check : val.Validator -> Outcome (list string)) (validators : list val.Validator) :
  (forall v errs, In v validators -> check v = Ret errs -> Forall Q errs) ->
  forall sub_errors,
    collect_sub_errors check validators = Ret sub_errors ->
    Forall (Forall Q) sub_errors.
Proof.
  induction validators as [| v validators IH]; intros Hcheck;
    cbn [collect_sub_errors]; intros sub_errors H.
  - injection H as <-. constructor.
  - apply bind_Ret_inv in H as (err & Hv & H).
    apply bind_Ret_inv in H as (more & Hrest & H).
    injection H as <-.
    assert (Hmore : Forall (Forall Q) more).
    { apply IH; [| exact Hrest]. intros w errs Hw. apply Hcheck. right. exact Hw. }
    destruct (truthy err); [| exact Hmore].
    constructor; [| exact Hmore]. eapply Hcheck; [left; reflexivity | exact Hv].
Qed.

Lemma add_if_all_failed_Forall (Q : string -> Prop) sub_errors validators :
  Forall (Forall Q) sub_errors -> Forall Q (add_if_all_failed sub_errors validators).
Proof.
  intros H. unfold add_if_all_failed.
  destruct (Nat.eqb _ _); [| constructor].
  induction H as [| errs sub_errors Herrs _ IH]; cbn; [constructor |].
  apply Forall_app. split; assumption.
Qed.

Lemma any_of_loop_Forall (Q : string -> Prop)
    (check : val.Validator -> Outcome (list string)) validators errors :
  (forall v errs, In v validators -> check v = Ret errs -> Forall Q errs) ->
  (sub_errors ← collect_sub_errors check validators;
   Ret (add_if_all_failed sub_errors validators)) = Ret errors ->
  Forall Q errors.
Proof.
  intros Hcheck H. apply bind_Ret_inv in H as (sub_errors & Hsub & H).
  injection H as <-. apply add_if_all_failed_Forall.
  eapply collect_sub_errors_Forall; eassumption.
Qed.

Lemma Forall_map_intro {A : Type} (Q : string -> Prop) (f : A -> string) (l : list A) :
  (forall x, In x l -> Q (f x)) -> Forall Q (map f l).
Proof.
  induction l as [| x l IH]; intros H; cbn [map]; constructor.
  - apply H. left. reflexivity.
  - apply IH. intros y Hy. apply H. right. exact Hy.
Qed.

Lemma undefined_include_explained validator data path include_name :
  Forall (explained repr includes validator data path)
         ["Include '" +:+ include_name +:+ "' has not been defined."].
Proof. apply Forall_singleton. left. left. exists include_name. reflexivity. Qed.

Section Sound.

Variable rec : Validate.
Hypothesis rec_sound : sound repr includes rec.

Lemma _validate_item_sound self parent validator data path strict key errors :
  checks parent data key validator ->
  _validate_item repr rec self validator data path strict key = Ret errors ->
  Forall (explained repr includes parent data path) errors.
Proof.
  intros Hchecks. unfold _validate_item.
  destruct (getitem data key) as [e | data_item] eqn:Hitem.
  - assert (Hfails : e = KeyError \/ e = IndexError -> lookup_fails data key).
    { intros [-> | ->]; [left | right]; exact Hitem. }
    destruct e; try discriminate;
      (destruct (isinstance_IncludeIf validator) eqn:Hkind; cbn [negb];
       [ intros H; apply rec_sound in H;
         eapply Forall_impl; [exact H |]; intros error;
         apply (explained_item parent data key validator DNone); [exact Hchecks |];
         right; split; [apply Hfails; auto | split; [exact Hkind | reflexivity]]
       | destruct (is_optional_validator validator) eqn:Hoptional;
         intros H; injection H as <-; [constructor |];
         apply Forall_singleton, explained_here;
         apply (Reports_missing_key repr path parent data key validator);
         [exact Hchecks | apply Hfails; auto | exact Hkind | exact Hoptional] ]).
  - intros H. apply rec_sound in H. eapply Forall_impl; [exact H |]. intros error.
    apply (explained_item parent data key validator data_item); [exact Hchecks |].
    left. exact Hitem.
Qed.

Lemma unexpected_keys_explained validator data path dkeys vkeys :
  util.get_keys data = Some dkeys ->
  util.get_keys validator = Some vkeys ->
  Forall (explained repr includes validator data path)
         (map (fun key =>
                 DataPath.str repr (DataPath.add path (DataPath.of_key key))
                 +:+ ": Unexpected element")
              (list_difference (remove_dups dkeys) (remove_dups vkeys))).
Proof.
  intros Hdkeys Hvkeys. apply Forall_map_intro. intros key Hkey.
  apply explained_here.
  apply list_elem_of_In, list_elem_of_difference in Hkey as [Hdata Hschema].
  rewrite elem_of_remove_dups in Hdata, Hschema.
  apply (Reports_unexpected_key repr path validator data key dkeys vkeys);
    [exact Hdkeys | exact Hvkeys | apply list_elem_of_In; exact Hdata |].
  intros Hin. apply Hschema, list_elem_of_In, Hin.
Qed.

Lemma _validate_static_map_list_sound self validator data path strict errors :
  _validate_static_map_list repr rec self validator data path strict = Ret errors ->
  Forall (explained repr includes validator data path) errors.
Proof.
  unfold _validate_static_map_list.
  destruct (util.is_map validator && negb (util.is_map data)) eqn:Hmap.
  { apply andb_prop in Hmap as [Hvmap Hdmap]. apply negb_true_iff in Hdmap.
    destruct (is_None data) eqn:Hnone; intros H; injection H as <-;
      apply Forall_singleton, explained_here.
    - apply Reports_missing; [exact Hvmap |]. destruct data; try discriminate.
      reflexivity.
    - apply Reports_not_a_map; [exact Hvmap | exact Hdmap |]. intros ->.
      discriminate Hnone. }
  destruct (util.is_list validator && negb (util.is_list data)) eqn:Hlist.
  { apply andb_prop in Hlist as [Hvlist Hdlist]. apply negb_true_iff in Hdlist.
    intros H; injection H as <-. apply Forall_singleton, explained_here.
    apply Reports_not_a_list; [exact Hvlist | exact Hdlist]. }
  intros H. apply bind_Ret_inv in H as (unexpected & Hunexpected & H).
  destruct (util.get_iter validator) as [items |] eqn:Hiter; [| discriminate H].
  apply bind_Ret_inv in H as (item_errors & Hitems & H). injection H as <-.
  apply Forall_app. split.
  - destruct strict; [| injection Hunexpected as <-; apply List.Forall_nil].
    destruct (util.get_keys data) as [dkeys |] eqn:Hdkeys; [| discriminate].
    destruct (util.get_keys validator) as [vkeys |] eqn:Hvkeys; [| discriminate].
    injection Hunexpected as <-.
    apply unexpected_keys_explained; [exact Hdkeys | exact Hvkeys].
  - eapply for_each_Forall; [| exact Hitems].
    intros [key sub_validator] errs Hin.
    apply _validate_item_sound. left. exists items. split; [exact Hiter | exact Hin].
Qed.

Lemma _validate_map_list_sound self validator data path strict errors :
  _validate_map_list repr rec self validator data path strict = Ret errors ->
  Forall (explained repr includes (Leaf validator) data path) errors.
Proof.
  unfold _validate_map_list.
  destruct validator as [| base validators | base validators | | |];
    try discriminate;
    (destruct (negb (truthy validators));
     [ intros H; injection H as <-; apply List.Forall_nil |];
     destruct (util.get_keys data) as [keys |] eqn:Hkeys; [| discriminate];
     apply for_each_Forall; intros key errs Hkey;
     apply any_of_loop_Forall; intros sub sub_errs Hsub;
     apply _validate_item_sound; right;
     exists validators, keys, sub;
     split; [reflexivity |];
     split; [exact Hkeys |];
     split; [exact Hkey |];
     split; [exact Hsub | reflexivity]).
Qed.

Lemma _validate_any_sound self validator data path strict errors :
  _validate_any rec self validator data path strict = Ret errors ->
  Forall (explained repr includes (Leaf validator) data path) errors.
Proof.
  unfold _validate_any.
  destruct validator as [| | | base validators | |]; try discriminate.
  destruct (negb (truthy validators)).
  - intros H; injection H as <-. apply Forall_singleton. left. right. left. reflexivity.
  - apply any_of_loop_Forall. intros sub sub_errs Hsub H.
    apply rec_sound in H. eapply Forall_impl; [exact H |]. intros error.
    apply explained_any. exact Hsub.
Qed.

Lemma _validate_include_sound self validator data path strict errors :
  _validate_include includes rec self validator data path strict = Ret errors ->
  Forall (explained repr includes (Leaf validator) data path) errors.
Proof.
  unfold _validate_include.
  destruct validator as [| | | | base include_name vstrict |]; try discriminate.
  destruct (includes !! include_name) as [include_schema |] eqn:Hregistered.
  - intros H. apply rec_sound in H. eapply Forall_impl; [exact H |]. intros error.
    apply explained_include. exact Hregistered.
  - intros H; injection H as <-. apply undefined_include_explained.
Qed.

Lemma _validate_include_if_sound self validator data path strict errors :
  _validate_include_if repr dpath_get includes rec self validator data path strict
  = Ret errors ->
  Forall (explained repr includes (Leaf validator) data path) errors.
Proof.
  unfold _validate_include_if.
  destruct validator
    as [| | | | | base if_path if_include_test then_include else_include vstrict];
    try discriminate.
  set (strict' := match vstrict with None => strict | Some s => s end).
  set (v := Leaf (val.IncludeIf base if_path if_include_test then_include
                                else_include vstrict)).
  destruct (_root_data self) as [root_data |]; [| discriminate].
  assert (Hresolve : forall include_name errs,
            include_name = then_include \/ else_include = Some include_name ->
            match includes !! include_name with
            | None => Ret ["Include '" +:+ include_name +:+ "' has not been defined."]
            | Some include_schema =>
                rec include_schema (_schema include_schema) data path strict'
            end = Ret errs ->
            Forall (explained repr includes v data path) errs).
  { intros include_name errs Hbranch.
    destruct (includes !! include_name) as [include_schema |] eqn:Hregistered.
    - intros H. apply rec_sound in H. eapply Forall_impl; [exact H |]. intros error.
      apply (explained_include_if _ _ _ _ _ _ include_name include_schema);
        assumption.
    - intros H; injection H as <-. apply undefined_include_explained. }
  assert (Hcontinue : forall if_data,
            match includes !! if_include_test with
            | None => Ret ["Include '" +:+ if_include_test +:+ "' has not been defined."]
            | Some if_schema =>
                condition ← rec if_schema (_schema if_schema) if_data
                                (DataPath.of_list (split "/"%char if_path)) strict';
                if truthy condition then
                  match else_include with
                  | None =>
                      if strict' && negb (is_None data) then
                        Ret [DataPath.str repr path +:+ ": Unexpected element"]
                      else Ret []
                  | Some include_name =>
                      match includes !! include_name with
                      | None =>
                          Ret ["Include '" +:+ include_name +:+ "' has not been defined."]
                      | Some include_schema =>
                          rec include_schema (_schema include_schema) data path strict'
                      end
                  end
                else
                  match includes !! then_include with
                  | None =>
                      Ret ["Include '" +:+ then_include +:+ "' has not been defined."]
                  | Some include_schema =>
                      rec include_schema (_schema include_schema) data path strict'
                  end
            end = Ret errors ->
            Forall (explained repr includes v data path) errors).
  { intros if_data. destruct (includes !! if_include_test) as [if_schema |].
    - intros H. apply bind_Ret_inv in H as (condition & _ & H).
      destruct (truthy condition);
        [| apply (Hresolve then_include _ (or_introl eq_refl) H)].
      subst v. destruct else_include as [include_name |];
        [apply (Hresolve include_name _ (or_intror eq_refl) H) |].
      destruct (strict' && negb (is_None data)) eqn:Hreport; injection H as <-;
        [| constructor].
      apply Forall_singleton, explained_here.
      eapply Reports_unexpected_value; [reflexivity |]. intros ->.
      rewrite andb_false_r in Hreport. discriminate Hreport.
    - intros H; injection H as <-. apply undefined_include_explained. }
  destruct (dpath_get root_data if_path) as [e | if_data]; [| apply Hcontinue].
  destruct e; try discriminate.
  destruct strict'; [| apply Hcontinue].
  intros H; injection H as <-. apply Forall_singleton. left. right. right.
  exists if_path. reflexivity.
Qed.

Lemma _validate_method_sound self validator data path strict errors :
  _validate_method repr dpath_get includes rec self validator data path strict
  = Ret errors ->
  Forall (explained repr includes validator data path) errors.
Proof.
  unfold _validate_method.
  destruct validator as [children | children | v];
    [apply _validate_static_map_list_sound .. |].
  destruct (is_None data && _ && _ && _); [intros H; injection H as <-; constructor |].
  destruct (_validate_primitive repr v data path) as [| error errs] eqn:Hprimitive;
    cbn [truthy].
  - intros H. apply bind_Ret_inv in H as (included & Hincluded & H).
    apply bind_Ret_inv in H as (structural & Hstructural & H).
    injection H as <-. cbn [app]. apply Forall_app. split.
    + destruct v; try (injection Hincluded as <-; constructor).
      eapply _validate_include_sound, Hincluded.
    + destruct v; try (injection Hstructural as <-; constructor).
      * eapply _validate_map_list_sound, Hstructural.
      * eapply _validate_map_list_sound, Hstructural.
      * eapply _validate_any_sound, Hstructural.
      * eapply _validate_include_if_sound, Hstructural.
  - intros H; injection H as <-. rewrite <- Hprimitive.
    unfold _validate_primitive. apply Forall_map_intro.
    intros message Hmessage. rewrite string_app_assoc. apply explained_here.
    apply (Reports_own repr path (Leaf v) data v message eq_refl Hmessage).
Qed.

End Sound.

Lemma _validate_sound (fuel : nat) :
  sound repr includes (_validate repr dpath_get includes fuel).
Proof.
  induction fuel as [| fuel IH]; [discriminate |].
  intros self validator data path strict errors.
  apply (_validate_method_sound _ IH).
Qed.

(** C3: every error string that the recursive validation returns is one
    of the three errors about the schema, which carry no path ("Include
    '<name>' has not been defined.", the error of an [any] without
    validators, "path '<if_path>' does not exist."), or it is the error
    of a call of [_validate] made within the validation and starts with
    the path of that call: the path of the validation followed by the
    keys and indices under which the engine fetched, one after the
    other, the value that the call is about. *)
Theorem validate_errors_carry_path (fuel : nat) self validator data path strict errors :
  _validate repr dpath_get includes fuel self validator data path strict = Ret errors ->
  Forall (fun error =>
            configuration_error error
            \/ exists (keys : list Key) (validator' : Node) (data' : Data),
                 Visit includes validator data keys validator' data'
                 /\ Reports repr (DataPath.add path (map DataPath.Seg keys))
                            validator' data' error)
         errors.
Proof. apply _validate_sound. Qed.

End Properties.


(** ** The properties on the samples *)

(** C4 at the document [{}] and the key [a] of the schema [{a: str()}]. *)
Lemma validate_item_missing_key_sample :
  lookup_fails (DMap []) (KStr "a")
  /\ _validate_item sample_repr (_validate sample_repr sample_get ∅ 1) schema_a
                    (Leaf (str_ true)) (DMap []) DataPath.empty true (KStr "a")
     = Ret ["a: Required field missing"].
Proof.
  assert (Hfail : lookup_fails (DMap []) (KStr "a")) by (left; reflexivity).
  split; [exact Hfail |].
  apply (validate_item_missing_key sample_repr sample_get ∅ 1 schema_a
           (Leaf (str_ true)) (DMap []) DataPath.empty true (KStr "a") Hfail);
    reflexivity.
Defined.

(** C10 at the document [[]] and the index 0 of the schema [[{a: str()}]]. *)
Lemma validate_item_missing_composite_sample :
  lookup_fails (DList []) (KInt 0)
  /\ _validate_item sample_repr (_validate sample_repr sample_get ∅ 1) schema_a
                    (_schema schema_a) (DList []) DataPath.empty false (KInt 0)
     = Ret ["0: Required field missing"].
Proof.
  assert (Hfail : lookup_fails (DList []) (KInt 0)) by (right; reflexivity).
  split; [exact Hfail |].
  apply (validate_item_missing_composite sample_repr sample_get ∅ 1 schema_a
           (_schema schema_a) (DList []) DataPath.empty false (KInt 0)
           eq_refl Hfail).
Defined.

(** C5 at the optional [int()]. *)
Lemma validate_optional_none_sample :
  _validate sample_repr sample_get ∅ 1 schema_a (Leaf (int_ false)) DNone
            (DataPath.of_key (KStr "a")) true
  = Ret [].
Proof.
  apply (validate_optional_none sample_repr sample_get ∅ 0 schema_a (int_ false)
           (DataPath.of_key (KStr "a")) true);
    reflexivity.
Defined.

(** C7 at [map(int(), str())] and the document [{a: "x", b: None}]: the
    key [a] satisfies [str()], the key [b] satisfies neither. *)
Lemma validate_map_list_any_of_sample :
  _validate_map_list sample_repr (_validate sample_repr sample_get ∅ 1) schema_a
                     map_int_str doc_x_none DataPath.empty false
  = Ret ["b: 'None' is not a int."; "b: 'None' is not a str."].
Proof.
  refine (proj1 (proj2 (validate_map_list_any_of sample_repr sample_get ∅ 1 schema_a
                          map_int_str (composite true) [int_ true; str_ true]
                          doc_x_none DataPath.empty false (or_introl eq_refl))
                       _ [KStr "a"; KStr "b"]
                       [[["a: 'x' is not a int."]; []];
                        [["b: 'None' is not a int."]; ["b: 'None' is not a str."]]]
                       eq_refl _)).
  - discriminate.
  - repeat (constructor; try reflexivity).
Defined.

(** C8 at [any(int(), str())] and the value ["x"]. *)
Lemma validate_any_rule_sample :
  _validate_any (_validate sample_repr sample_get ∅ 1) schema_a any_int_str
                (DStr "x") (DataPath.of_key (KStr "a")) false
  = Ret [].
Proof.
  refine (proj1 (proj2 (validate_any_rule sample_repr sample_get ∅ 1 schema_a
                          (composite true) [int_ true; str_ true]
                          (DStr "x") (DataPath.of_key (KStr "a")) false)
                       _ [["a: 'x' is not a int."]; []] _)
                _).
  - discriminate.
  - repeat (constructor; try reflexivity).
  - right. left. reflexivity.
Defined.

(** C8: the message of the code has the word any in double quotes, not
    in single quotes. *)
Lemma any_without_validators_message :
  _validate sample_repr sample_get ∅ 1 schema_a (Leaf any_nothing) (DInt 1)
            (DataPath.of_key (KStr "a")) false
  = Ret ["No validators specified for " +:+ dquote +:+ "any" +:+ dquote +:+ "."]
  /\ _validate sample_repr sample_get ∅ 1 schema_a (Leaf any_nothing) (DInt 1)
               (DataPath.of_key (KStr "a")) false
     <> Ret ["No validators specified for 'any'."].
Proof. split; [reflexivity | discriminate]. Qed.

(** C1 at the documents [{type: "a", value: 5}] and [{type: "b", value: 5}]:
    in the first the test on [/type] holds and the value is checked
    against [an_int]; in the second the test fails and, without an
    [else_include], the strict mode reports the value. *)
Lemma validate_include_if_rule_sample :
  _validate_include_if sample_repr sample_get sample_includes
    (_validate sample_repr sample_get sample_includes 1)
    (set_root_data schema_typed doc_a_5) (value_if (Some "a_str"))
    (DInt 5) (DataPath.of_key (KStr "value")) true
  = Ret []
  /\ _validate_include_if sample_repr sample_get sample_includes
       (_validate sample_repr sample_get sample_includes 1)
       (set_root_data schema_typed doc_b_5) (value_if None)
       (DInt 5) (DataPath.of_key (KStr "value")) true
     = Ret ["value: Unexpected element"].
Proof.
  split.
  - refine (proj1 (proj2 (validate_include_if_rule sample_repr sample_get
                            sample_includes 1
                            (set_root_data schema_typed doc_a_5) (composite true)
                            "/type" "is_a" "an_int" (Some "a_str") None
                            (DInt 5) (DataPath.of_key (KStr "value")) true doc_a_5
                            eq_refl)
                         (DStr "a") (schema_of "is_a" (Leaf (enum_ "a"))) []
                         (or_introl eq_refl) eq_refl eq_refl)
                  eq_refl).
  - refine (proj1 (proj2 (proj2 (validate_include_if_rule sample_repr sample_get
                                   sample_includes 1
                                   (set_root_data schema_typed doc_b_5) (composite true)
                                   "/type" "is_a" "an_int" None None
                                   (DInt 5) (DataPath.of_key (KStr "value")) true doc_b_5
                                   eq_refl)
                                (DStr "b") (schema_of "is_a" (Leaf (enum_ "a")))
                                ["['', 'type']: 'b' not in enum"]
                                (or_introl eq_refl) eq_refl _)
                         _)
                  eq_refl _).
    + reflexivity.
    + discriminate.
    + discriminate.
Defined.

(** C6 at the schema [{a: str()}] and the document [{a: "x", b: 1}]. *)
Lemma validate_static_map_unexpected_sample :
  _validate sample_repr sample_get ∅ 2 schema_a (_schema schema_a) data_a_b
            DataPath.empty true
  = Ret ["b: Unexpected element"]
  /\ _validate sample_repr sample_get ∅ 2 schema_a (_schema schema_a) data_a_b
               DataPath.empty false
     = Ret [].
Proof.
  apply (validate_static_map_unexpected sample_repr sample_get ∅ 0 schema_a [] []
           DataPath.empty).
Defined.

(** C9 at the schema [{a: str()}]: the strict call raises, the lenient
    call returns. *)
Lemma validate_frame_sample :
  let st := {| instance := schema_a; registry := ∅ |} in
  snd (validate sample_repr sample_get 2 st data_a_b "data" true)
  = Raise (ValueError (error_str (set_root_data schema_a data_a_b) "data"
                                 ["b: Unexpected element"]))
  /\ snd (validate sample_repr sample_get 2 st data_a_b "data" false) = Ret tt.
Proof.
  intros st. split.
  - apply (proj2 (proj2 (proj2 (proj2 (proj2
             (validate_frame sample_repr sample_get 2 st data_a_b "data" true)))))
             ["b: Unexpected element"] eq_refl).
    discriminate.
  - apply (proj2 (proj2 (proj2 (proj2 (proj2
             (validate_frame sample_repr sample_get 2 st data_a_b "data" false)))))
             [] eq_refl).
    reflexivity.
Defined.

(** C9: the root document is still bound on the instance after the call,
    when the call raises and when it returns. *)
Lemma root_data_stays_bound :
  let st := {| instance := schema_a; registry := ∅ |} in
  _root_data (instance st) = None
  /\ _root_data (instance (fst (validate sample_repr sample_get 2 st data_a_b "data" true)))
     = Some data_a_b
  /\ _root_data (instance (fst (validate sample_repr sample_get 2 st data_a_b "data" false)))
     = Some data_a_b
  /\ _root_data (instance (fst (validate sample_repr sample_get 2 st data_a_b "data" true)))
     <> _root_data (instance st).
Proof. repeat split. discriminate. Qed.

(** C3 at the schema [{a: {b: str()}, x: include('nope')}] and the
    document [{a: {b: 1}, x: 2}]: one error of the value under [a.b], one
    error about the schema. *)
Lemma validate_errors_carry_path_sample :
  Forall (fun error =>
            configuration_error error
            \/ exists (keys : list Key) (validator' : Node) (data' : Data),
                 Visit ∅ tree_nested doc_nested keys validator' data'
                 /\ Reports sample_repr
                            (DataPath.add DataPath.empty (map DataPath.Seg keys))
                            validator' data' error)
         ["a.b: '1' is not a str."; "Include 'nope' has not been defined."].
Proof.
  apply (validate_errors_carry_path sample_repr sample_get ∅ 3 schema_a
           tree_nested doc_nested DataPath.empty false).
  reflexivity.
Defined.

Lemma no_prefix_at_x (suffix : DataPath.t) (message : string) (c : ascii) :
  c <> "x"%char ->
  String.prefix
    (DataPath.str sample_repr (DataPath.add (DataPath.of_key (KStr "x")) suffix))
    (String c message)
  = false.
Proof.
  intros Hc.
  assert (Hx : exists tail, DataPath.str sample_repr
                              (DataPath.add (DataPath.of_key (KStr "x")) suffix)
                            = String "x"%char tail).
  { destruct suffix as [| segment suffix]; [exists EmptyString; reflexivity |].
    eexists. reflexivity. }
  destruct Hx as (tail & ->). cbn [String.prefix].
  destruct (ascii_dec "x" c) as [Heq | Hne]; [congruence | reflexivity].
Qed.

(** C3: the errors of an undefined include and of an [any] without
    validators, returned by a validation at the path [x], start neither
    with that path nor with any path below it. *)
Lemma configuration_errors_without_path :
  (_validate sample_repr sample_get ∅ 1 schema_a (Leaf include_nope) (DInt 1)
             (DataPath.of_key (KStr "x")) false
   = Ret ["Include 'nope' has not been defined."]
   /\ forall suffix : DataPath.t,
        String.prefix
          (DataPath.str sample_repr (DataPath.add (DataPath.of_key (KStr "x")) suffix))
          "Include 'nope' has not been defined."
        = false)
  /\ (_validate sample_repr sample_get ∅ 1 schema_a (Leaf any_nothing) (DInt 1)
                (DataPath.of_key (KStr "x")) false
      = Ret ["No validators specified for " +:+ dquote +:+ "any" +:+ dquote +:+ "."]
      /\ forall suffix : DataPath.t,
           String.prefix
             (DataPath.str sample_repr
                (DataPath.add (DataPath.of_key (KStr "x")) suffix))
             ("No validators specified for " +:+ dquote +:+ "any" +:+ dquote +:+ ".")
           = false).
Proof.
  split; (split; [reflexivity |]); intros suffix; apply no_prefix_at_x; discriminate.
Qed.

(** ** Further properties of the engine *)

Section Delegation.

Variable repr : Data -> string.
Variable dpath_get : Data -> string -> Exn + Data.
Variable includes : gmap string Schema.

Lemma prefix_errors (path : DataPath.t) (errors : list string) :
  map (fun error => (DataPath.str repr path +:+ ": ") +:+ error) errors
  = map (fun error => DataPath.str repr path +:+ ": " +:+ error) errors.
Proof.
  induction errors as [| error errors IH]; [reflexivity |].
  cbn [map]. rewrite IH. f_equal.
  generalize (DataPath.str repr path). intros p.
  induction p as [| c p IHp]; [reflexivity |].
  change (String c ((p +:+ ": ") +:+ error) = String c (p +:+ ": " +:+ error)).
  rewrite IHp. reflexivity.
Qed.

Lemma bind_only_included (m : Outcome (list string)) :
  (included ← m; structural ← Ret []; Ret ([] ++ included ++ structural)) = m.
Proof. destruct m as [errors | e |]; cbn; [rewrite app_nil_r |..]; reflexivity. Qed.

Lemma bind_only_structural (m : Outcome (list string)) :
  (included ← Ret []; structural ← m; Ret ([] ++ included ++ structural)) = m.
Proof. destruct m as [errors | e |]; reflexivity. Qed.

(** The leaf whose own check passes: what is left of [_validate]. *)
Lemma _validate_leaf_passed (rec : Validate) self (v : val.Validator) data path strict :
  skipped v data = false ->
  val.validate (val.base v) data = [] ->
  _validate_method repr dpath_get includes rec self (Leaf v) data path strict
  = match v with
    | val.Primitive _ => Ret []
    | val.Map _ _ | val.List _ _ => _validate_map_list repr rec self v data path strict
    | val.Any _ _ => _validate_any rec self v data path strict
    | val.Include _ _ _ => _validate_include includes rec self v data path strict
    | val.IncludeIf _ _ _ _ _ _ =>
        _validate_include_if repr dpath_get includes rec self v data path strict
    end.
Proof.
  intros Hskip Hvalid. unfold _validate_method.
  change (is_None data && val.is_optional (val.base v) && val.can_be_none (val.base v)
          && negb (isinstance_IncludeIf (Leaf v))) with (skipped v data).
  rewrite Hskip. unfold _validate_primitive. rewrite Hvalid. cbn [map truthy].
  destruct v; first [apply bind_only_included | apply bind_only_structural | reflexivity].
Qed.

(** A leaf whose own check fails is not looked into: the result is the
    errors of [validate], each behind the path, whatever the kind of the
    validator, the registry and the strict flag. *)
Theorem failed_leaf_is_not_entered (fuel : nat) self (v : val.Validator) data path strict :
  skipped v data = false ->
  val.validate (val.base v) data <> [] ->
  _validate repr dpath_get includes (S fuel) self (Leaf v) data path strict
  = Ret (map (fun error => DataPath.str repr path +:+ ": " +:+ error)
             (val.validate (val.base v) data)).
Proof.
  intros Hskip Herrors. cbn [_validate]. unfold _validate_method.
  change (is_None data && val.is_optional (val.base v) && val.can_be_none (val.base v)
          && negb (isinstance_IncludeIf (Leaf v))) with (skipped v data).
  rewrite Hskip. unfold _validate_primitive. rewrite prefix_errors.
  destruct (val.validate (val.base v) data); [congruence | reflexivity].
Qed.

Lemma _validate_include_leaf (fuel : nat) self base include_name vstrict data path strict :
  skipped (val.Include base include_name vstrict) data = false ->
  val.validate base data = [] ->
  _validate repr dpath_get includes (S fuel) self
            (Leaf (val.Include base include_name vstrict)) data path strict
  = match includes !! include_name with
    | None => Ret ["Include '" +:+ include_name +:+ "' has not been defined."]
    | Some include_schema =>
        _validate repr dpath_get includes fuel include_schema (_schema include_schema)
                  data path (match vstrict with None => strict | Some s => s end)
    end.
Proof.
  intros Hskip Hvalid. cbn [_validate].
  rewrite (_validate_leaf_passed _ _ _ _ _ _ Hskip Hvalid). reflexivity.
Qed.

(** An include whose own check passes validates like the tree of the
    schema registered under its name, on the same data and path, in the
    strict mode of its override or else of the caller; a name that is not
    registered gives the one error "Include '<name>' has not been
    defined.", whatever the data. *)
Theorem include_validates_like_its_schema (fuel : nat) self base include_name vstrict
    data path strict :
  skipped (val.Include base include_name vstrict) data = false ->
  val.validate base data = [] ->
  (forall include_schema : Schema,
     includes !! include_name = Some include_schema ->
     _validate repr dpath_get includes (S fuel) self
               (Leaf (val.Include base include_name vstrict)) data path strict
     = _validate repr dpath_get includes fuel include_schema (_schema include_schema)
                 data path (match vstrict with None => strict | Some s => s end))
  /\ (includes !! include_name = None ->
      _validate repr dpath_get includes (S fuel) self
                (Leaf (val.Include base include_name vstrict)) data path strict
      = Ret ["Include '" +:+ include_name +:+ "' has not been defined."]).
Proof.
  intros Hskip Hvalid.
  rewrite (_validate_include_leaf _ _ _ _ _ _ _ _ Hskip Hvalid).
  split; [intros include_schema -> | intros ->]; reflexivity.
Qed.

(** A schema that is an include of itself: the validation of an include
    of its name does not come back, whatever the budget of calls. *)
Theorem self_include_never_returns (fuel : nat) self (s : Schema) base include_name
    vstrict data path strict :
  includes !! include_name = Some s ->
  _schema s = Leaf (val.Include base include_name vstrict) ->
  skipped (val.Include base include_name vstrict) data = false ->
  val.validate base data = [] ->
  _validate repr dpath_get includes fuel self
            (Leaf (val.Include base include_name vstrict)) data path strict
  = Diverge.
Proof.
  intros Hregistered Htree Hskip Hvalid. revert self strict.
  induction fuel as [| fuel IH]; intros self strict; [reflexivity |].
  rewrite (_validate_include_leaf _ _ _ _ _ _ _ _ Hskip Hvalid), Hregistered, Htree.
  apply IH.
Qed.

(** With one sub-validator the any-of rule adds nothing: [any(v)]
    validates like [v], and a dynamic map or list of [v] gives, for each
    key of the data in order, the errors of [v] at that key. *)
Theorem single_sub_validator (fuel : nat) self base (sub : val.Validator)
    data path strict :
  let rec := _validate repr dpath_get includes fuel in
  _validate_any rec self (val.Any base [sub]) data path strict
  = rec self (Leaf sub) data path strict
  /\ forall keys : list Key,
       util.get_keys data = Some keys ->
       _validate_map_list repr rec self (val.Map base [sub]) data path strict
       = for_each (fun key => _validate_item repr rec self (Leaf sub) data path strict key)
                  keys
       /\ _validate_map_list repr rec self (val.List base [sub]) data path strict
          = for_each (fun key => _validate_item repr rec self (Leaf sub) data path strict key)
                     keys.
Proof.
  intros rec.
  assert (Hone : forall m : Outcome (list string),
            (sub_errors ← (err ← m; sub_errors ← Ret [];
                           Ret (if truthy err then err :: sub_errors else sub_errors));
             Ret (add_if_all_failed sub_errors [sub])) = m).
  { intros [[| error errors] | e |]; try reflexivity.
    cbn. unfold add_if_all_failed. cbn. rewrite app_nil_r. reflexivity. }
  split.
  - unfold _validate_any. cbn [truthy negb collect_sub_errors]. apply Hone.
  - intros keys Hkeys. unfold _validate_map_list. cbn [truthy negb]. rewrite Hkeys.
    assert (Heach : forall (body : Key -> Outcome (list string)) (ks : list Key),
              for_each (fun key =>
                          sub_errors ← collect_sub_errors (fun v => body key) [sub];
                          Ret (add_if_all_failed sub_errors [sub])) ks
              = for_each body ks).
    { intros body ks. induction ks as [| key ks IH]; [reflexivity |].
      cbn [for_each collect_sub_errors]. rewrite Hone.
      cbn [for_each collect_sub_errors] in IH. rewrite IH. reflexivity. }
    split;
      apply (Heach (fun key => _validate_item repr rec self (Leaf sub) data path strict key)).
Qed.

End Delegation.

Section Budget.

Variable repr : Data -> string.
Variable dpath_get : Data -> string -> Exn + Data.
Variable includes : gmap string Schema.

(** *** Loops that come back *)

Lemma bind_returns {A B : Type} (m : Outcome A) (k : A -> Outcome B) :
  m <> Diverge -> (forall a, k a <> Diverge) -> (m ≫= k) <> Diverge.
Proof. destruct m as [a | e |]; cbn; intros Hm Hk; [apply Hk | discriminate | congruence]. Qed.

Lemma for_each_returns {A : Type} (body : A -> Outcome (list string)) (xs : list A) :
  (forall x, In x xs -> body x <> Diverge) -> for_each body xs <> Diverge.
Proof.
  induction xs as [| x xs IH]; intros Hbody; [discriminate |].
  cbn [for_each]. apply bind_returns; [apply Hbody; left; reflexivity |].
  intros errs. apply bind_returns; [| discriminate].
  apply IH. intros y Hy. apply Hbody. right. exact Hy.
Qed.

Lemma collect_sub_errors_returns (check : val.Validator -> Outcome (list string))
    (validators : list val.Validator) :
  (forall v, In v validators -> check v <> Diverge) ->
  collect_sub_errors check validators <> Diverge.
Proof.
  induction validators as [| v validators IH]; intros Hcheck; [discriminate |].
  cbn [collect_sub_errors]. apply bind_returns; [apply Hcheck; left; reflexivity |].
  intros err. apply bind_returns; [| discriminate].
  apply IH. intros w Hw. apply Hcheck. right. exact Hw.
Qed.

Lemma _validate_item_returns (rec : Validate) self validator data path strict key :
  (forall data' path', rec self validator data' path' strict <> Diverge) ->
  _validate_item repr rec self validator data path strict key <> Diverge.
Proof.
  intros Hrec. unfold _validate_item.
  destruct (getitem data key) as [e | data_item]; [| apply Hrec].
  destruct e; try discriminate;
    (destruct (isinstance_IncludeIf validator); cbn [negb]; [apply Hrec |];
     destruct (is_optional_validator validator); discriminate).
Qed.

Lemma max_list_with_In {A : Type} (f : A -> nat) (x : A) (l : list A) :
  In x l -> (f x <= max_list_with f l)%nat.
Proof.
  induction l as [| y l IH]; [contradiction |].
  cbn [max_list_with]. intros [-> | Hin]; [lia |]. specialize (IH Hin). lia.
Qed.

Lemma In_enumerate {A : Type} (key : Key) (x : A) (l : list A) :
  In (key, x) (util.enumerate l) -> In x l.
Proof.
  unfold util.enumerate. intros Hin. apply list_elem_of_In in Hin.
  apply elem_of_lookup_imap in Hin as (i & y & Heq & Hy).
  injection Heq as _ ->. apply list_elem_of_In. eapply list_elem_of_lookup_2, Hy.
Qed.

(** Validation against a tree without includes comes back (it returns
    or raises) as soon as the budget of nested calls reaches the depth of
    the tree, whatever the size of the data. *)
Theorem include_free_validation_returns (fuel : nat) self validator data path strict :
  include_free validator = true ->
  (depth validator <= fuel)%nat ->
  _validate repr dpath_get includes fuel self validator data path strict <> Diverge.
Proof.
  revert self validator data path strict.
  induction fuel as [| fuel IH]; intros self validator data path strict Hfree Hdepth.
  { exfalso. destruct validator as [children | children | v]; cbn in Hdepth; try lia.
    destruct v; cbn in Hdepth; lia. }
  cbn [_validate]. unfold _validate_method.
  destruct validator as [children | children | v].
  - unfold _validate_static_map_list.
    destruct (_ && negb (util.is_map data)); [destruct (is_None data); discriminate |].
    destruct (_ && negb (util.is_list data)); [discriminate |].
    apply bind_returns.
    { destruct strict; [| discriminate].
      destruct (util.get_keys data); [| discriminate].
      destruct (util.get_keys (NMap children)); discriminate. }
    intros errors. cbn [util.get_iter as_map Node_container].
    apply bind_returns; [| discriminate].
    apply for_each_returns. intros [key sub] Hin.
    apply _validate_item_returns. intros data' path'. apply IH.
    + cbn [include_free] in Hfree. rewrite forallb_forall in Hfree.
      apply (Hfree (key, sub) Hin).
    + cbn [depth] in Hdepth.
      pose proof (max_list_with_In (fun child => depth (snd child)) (key, sub) children Hin)
        as Hle.
      cbn [snd] in Hle. lia.
  - unfold _validate_static_map_list.
    destruct (_ && negb (util.is_map data)); [destruct (is_None data); discriminate |].
    destruct (_ && negb (util.is_list data)); [discriminate |].
    apply bind_returns.
    { destruct strict; [| discriminate].
      destruct (util.get_keys data); [| discriminate].
      destruct (util.get_keys (NList children)); discriminate. }
    intros errors. cbn [util.get_iter as_map as_list Node_container].
    apply bind_returns; [| discriminate].
    apply for_each_returns. intros [key sub] Hin. apply In_enumerate in Hin.
    apply _validate_item_returns. intros data' path'. apply IH.
    + cbn [include_free] in Hfree. rewrite forallb_forall in Hfree. apply (Hfree sub Hin).
    + cbn [depth] in Hdepth.
      pose proof (max_list_with_In depth sub children Hin) as Hle. lia.
  - destruct (is_None data && _ && _ && _); [discriminate |].
    destruct (truthy (_validate_primitive repr v data path)); [discriminate |].
    assert (Hsub : forall validators sub,
              forallb validator_include_free validators = true ->
              (S (max_list_with validator_depth validators) <= S fuel)%nat ->
              In sub validators ->
              forall self' data' path',
                _validate repr dpath_get includes fuel self' (Leaf sub) data' path' strict
                <> Diverge).
    { intros validators sub Hall Hmax Hin self' data' path'. apply IH.
      - rewrite forallb_forall in Hall. apply (Hall sub Hin).
      - pose proof (max_list_with_In validator_depth sub validators Hin) as Hle.
        cbn [depth]. lia. }
    assert (Hdynamic : forall validators,
              forallb validator_include_free validators = true ->
              (S (max_list_with validator_depth validators) <= S fuel)%nat ->
              (if negb (truthy validators) then Ret []
               else match util.get_keys data with
                    | Some keys =>
                        for_each
                          (fun key =>
                             sub_errors ←
                               collect_sub_errors
                                 (fun sub =>
                                    _validate_item repr
                                      (_validate repr dpath_get includes fuel)
                                      self (Leaf sub) data path strict key)
                                 validators;
                             Ret (add_if_all_failed sub_errors validators))
                          keys
                    | None => Raise TypeError
                    end) <> Diverge).
    { intros validators Hall Hmax.
      destruct (negb (truthy validators)); [discriminate |].
      destruct (util.get_keys data) as [keys |]; [| discriminate].
      apply for_each_returns. intros key _.
      apply bind_returns; [| discriminate].
      apply collect_sub_errors_returns. intros sub Hin.
      apply _validate_item_returns. intros data' path'.
      apply (Hsub validators sub Hall Hmax Hin). }
    destruct v as [base | base validators | base validators | base validators | |];
      cbn [include_free validator_include_free] in Hfree;
      cbn [depth validator_depth] in Hdepth;
      try discriminate Hfree.
    + discriminate.
    + apply bind_returns; [discriminate |]. intros included.
      apply bind_returns; [| discriminate]. apply (Hdynamic validators Hfree Hdepth).
    + apply bind_returns; [discriminate |]. intros included.
      apply bind_returns; [| discriminate]. apply (Hdynamic validators Hfree Hdepth).
    + apply bind_returns; [discriminate |]. intros included.
      apply bind_returns; [| discriminate]. unfold _validate_any.
      destruct (negb (truthy validators)); [discriminate |].
      apply bind_returns; [| discriminate].
      apply collect_sub_errors_returns. intros sub Hin.
      apply (Hsub validators sub Hfree Hdepth Hin).
Qed.

End Budget.

Section Independence.

Variable repr : Data -> string.
Variable dpath_get : Data -> string -> Exn + Data.
Variable includes : gmap string Schema.

(** *** A larger budget *)

Lemma settles_refl {A : Type} (o : Outcome A) : settles o o.
Proof. right. reflexivity. Qed.

Lemma settles_trans {A : Type} (o1 o2 o3 : Outcome A) :
  settles o1 o2 -> settles o2 o3 -> settles o1 o3.
Proof.
  intros [-> | ->]; [left; reflexivity |]. intros H. exact H.
Qed.

Lemma settles_bind {A B : Type} (m m' : Outcome A) (k k' : A -> Outcome B) :
  settles m m' -> (forall a, settles (k a) (k' a)) -> settles (m ≫= k) (m' ≫= k').
Proof.
  intros [-> | ->] Hk; [left; reflexivity |].
  destruct m as [a | e |]; cbn; [apply Hk | right; reflexivity | left; reflexivity].
Qed.

Lemma settles_for_each {A : Type} (f g : A -> Outcome (list string)) (xs : list A) :
  (forall x, settles (f x) (g x)) -> settles (for_each f xs) (for_each g xs).
Proof.
  intros Hfg. induction xs as [| x xs IH]; [apply settles_refl |].
  cbn [for_each]. apply settles_bind; [apply Hfg |]. intros errs.
  apply settles_bind; [exact IH |]. intros more. apply settles_refl.
Qed.

Lemma settles_collect (f g : val.Validator -> Outcome (list string))
    (validators : list val.Validator) :
  (forall v, settles (f v) (g v)) ->
  settles (collect_sub_errors f validators) (collect_sub_errors g validators).
Proof.
  intros Hfg. induction validators as [| v validators IH]; [apply settles_refl |].
  cbn [collect_sub_errors]. apply settles_bind; [apply Hfg |]. intros err.
  apply settles_bind; [exact IH |]. intros sub_errors. apply settles_refl.
Qed.

Section Larger.

Variables rec rec' : Validate.
Hypothesis rec_settles :
  forall self validator data path strict,
    settles (rec self validator data path strict) (rec' self validator data path strict).

Lemma settles_item self validator data path strict key :
  settles (_validate_item repr rec self validator data path strict key)
          (_validate_item repr rec' self validator data path strict key).
Proof.
  unfold _validate_item.
  destruct (getitem data key) as [e | data_item]; [| apply rec_settles].
  destruct e; try apply settles_refl;
    (destruct (negb (isinstance_IncludeIf validator));
     [apply settles_refl | apply rec_settles]).
Qed.

Lemma settles_any_of (f g : val.Validator -> Outcome (list string)) validators :
  (forall v, settles (f v) (g v)) ->
  settles (sub_errors ← collect_sub_errors f validators;
           Ret (add_if_all_failed sub_errors validators))
          (sub_errors ← collect_sub_errors g validators;
           Ret (add_if_all_failed sub_errors validators)).
Proof.
  intros Hfg. apply settles_bind; [apply settles_collect, Hfg |].
  intros sub_errors. apply settles_refl.
Qed.

Lemma settles_method self validator data path strict :
  settles (_validate_method repr dpath_get includes rec self validator data path strict)
          (_validate_method repr dpath_get includes rec' self validator data path strict).
Proof.
  unfold _validate_method.
  assert (Hstatic :
            settles (_validate_static_map_list repr rec self validator data path strict)
                    (_validate_static_map_list repr rec' self validator data path strict)).
  { unfold _validate_static_map_list.
    destruct (_ && negb (util.is_map data)); [apply settles_refl |].
    destruct (_ && negb (util.is_list data)); [apply settles_refl |].
    apply settles_bind; [apply settles_refl |]. intros errors.
    destruct (util.get_iter validator) as [items |]; [| apply settles_refl].
    apply settles_bind; [| intros item_errors; apply settles_refl].
    apply settles_for_each. intros [key sub]. apply settles_item. }
  destruct validator as [children | children | v]; [exact Hstatic .. |].
  destruct (is_None data && _ && _ && _); [apply settles_refl |].
  destruct (truthy (_validate_primitive repr v data path)); [apply settles_refl |].
  apply settles_bind.
  { destruct v; try apply settles_refl.
    unfold _validate_include. destruct (includes !! include_name);
      [apply rec_settles | apply settles_refl]. }
  intros included. apply settles_bind; [| intros structural; apply settles_refl].
  destruct v as [base | base validators | base validators | base validators
                | base include_name vstrict
                | base if_path if_include_test then_include else_include vstrict];
    try apply settles_refl.
  - unfold _validate_map_list. destruct (negb (truthy validators)); [apply settles_refl |].
    destruct (util.get_keys data); [| apply settles_refl].
    apply settles_for_each. intros key. apply settles_any_of. intros sub.
    apply settles_item.
  - unfold _validate_map_list. destruct (negb (truthy validators)); [apply settles_refl |].
    destruct (util.get_keys data); [| apply settles_refl].
    apply settles_for_each. intros key. apply settles_any_of. intros sub.
    apply settles_item.
  - unfold _validate_any. destruct (negb (truthy validators)); [apply settles_refl |].
    apply settles_any_of. intros sub. apply rec_settles.
  - unfold _validate_include_if.
    destruct (_root_data self) as [root_data |]; [| apply settles_refl].
    set (strict' := match vstrict with None => strict | Some s => s end).
    assert (Hresolve : forall include_name,
              settles
                match includes !! include_name with
                | None => Ret ["Include '" +:+ include_name +:+ "' has not been defined."]
                | Some include_schema =>
                    rec include_schema (_schema include_schema) data path strict'
                end
                match includes !! include_name with
                | None => Ret ["Include '" +:+ include_name +:+ "' has not been defined."]
                | Some include_schema =>
                    rec' include_schema (_schema include_schema) data path strict'
                end).
    { intros include_name. destruct (includes !! include_name);
        [apply rec_settles | apply settles_refl]. }
    assert (Hcontinue : forall if_data,
              settles
                match includes !! if_include_test with
                | None =>
                    Ret ["Include '" +:+ if_include_test +:+ "' has not been defined."]
                | Some if_schema =>
                    condition ← rec if_schema (_schema if_schema) if_data
                                    (DataPath.of_list (split "/"%char if_path)) strict';
                    if truthy condition then
                      match else_include with
                      | None =>
                          if strict' && negb (is_None data) then
                            Ret [DataPath.str repr path +:+ ": Unexpected element"]
                          else Ret []
                      | Some include_name =>
                          match includes !! include_name with
                          | None =>
                              Ret ["Include '" +:+ include_name +:+ "' has not been defined."]
                          | Some include_schema =>
                              rec include_schema (_schema include_schema) data path strict'
                          end
                      end
                    else
                      match includes !! then_include with
                      | None =>
                          Ret ["Include '" +:+ then_include +:+ "' has not been defined."]
                      | Some include_schema =>
                          rec include_schema (_schema include_schema) data path strict'
                      end
                end
                match includes !! if_include_test with
                | None =>
                    Ret ["Include '" +:+ if_include_test +:+ "' has not been defined."]
                | Some if_schema =>
                    condition ← rec' if_schema (_schema if_schema) if_data
                                    (DataPath.of_list (split "/"%char if_path)) strict';
                    if truthy condition then
                      match else_include with
                      | None =>
                          if strict' && negb (is_None data) then
                            Ret [DataPath.str repr path +:+ ": Unexpected element"]
                          else Ret []
                      | Some include_name =>
                          match includes !! include_name with
                          | None =>
                              Ret ["Include '" +:+ include_name +:+ "' has not been defined."]
                          | Some include_schema =>
                              rec' include_schema (_schema include_schema) data path strict'
                          end
                      end
                    else
                      match includes !! then_include with
                      | None =>
                          Ret ["Include '" +:+ then_include +:+ "' has not been defined."]
                      | Some include_schema =>
                          rec' include_schema (_schema include_schema) data path strict'
                      end
                end).
    { intros if_data. destruct (includes !! if_include_test) as [if_schema |];
        [| apply settles_refl].
      apply settles_bind; [apply rec_settles |]. intros condition.
      destruct (truthy condition); [| apply Hresolve].
      destruct else_include; [apply Hresolve | apply settles_refl]. }
    destruct (dpath_get root_data if_path) as [e | if_data]; [| apply Hcontinue].
    destruct e; try apply settles_refl.
    destruct strict'; [apply settles_refl | apply Hcontinue].
Qed.

End Larger.

Lemma _validate_settles_step (fuel : nat) self validator data path strict :
  settles (_validate repr dpath_get includes fuel self validator data path strict)
          (_validate repr dpath_get includes (S fuel) self validator data path strict).
Proof.
  revert self validator data path strict.
  induction fuel as [| fuel IH]; intros self validator data path strict;
    [left; reflexivity |].
  apply (settles_method _ _ IH).
Qed.

(** A call that comes back within some budget of nested calls gives the
    same result, returned or raised, within every larger budget. *)
Theorem larger_budget_same_result (fuel fuel' : nat) self validator data path strict :
  (fuel <= fuel')%nat ->
  _validate repr dpath_get includes fuel self validator data path strict <> Diverge ->
  _validate repr dpath_get includes fuel' self validator data path strict
  = _validate repr dpath_get includes fuel self validator data path strict.
Proof.
  intros Hle Hback.
  assert (Hsettles :
            settles (_validate repr dpath_get includes fuel self validator data path strict)
                    (_validate repr dpath_get includes fuel' self validator data path strict)).
  { induction Hle as [| fuel' _ IH]; [apply settles_refl |].
    eapply settles_trans; [exact IH | apply _validate_settles_step]. }
  destruct Hsettles as [Hdiverge | Hsame]; [contradiction | exact Hsame].
Qed.

End Independence.

Section Frames.

Variable repr : Data -> string.
Variable dpath_get : Data -> string -> Exn + Data.
Variable includes : gmap string Schema.

Lemma for_each_ext_in {A : Type} (f g : A -> Outcome (list string)) (xs : list A) :
  (forall x, In x xs -> f x = g x) -> for_each f xs = for_each g xs.
Proof.
  induction xs as [| x xs IH]; intros Hfg; [reflexivity |].
  cbn [for_each]. rewrite (Hfg x), IH; [reflexivity | | left; reflexivity].
  intros y Hy. apply Hfg. right. exact Hy.
Qed.

Lemma collect_sub_errors_ext_in (f g : val.Validator -> Outcome (list string))
    (validators : list val.Validator) :
  (forall v, In v validators -> f v = g v) ->
  collect_sub_errors f validators = collect_sub_errors g validators.
Proof.
  induction validators as [| v validators IH]; intros Hfg; [reflexivity |].
  cbn [collect_sub_errors]. rewrite (Hfg v), IH; [reflexivity | | left; reflexivity].
  intros w Hw. apply Hfg. right. exact Hw.
Qed.

Lemma _validate_item_ext (rec rec' : Validate) self self' validator data path strict key :
  (forall data' path',
     rec self validator data' path' strict = rec' self' validator data' path' strict) ->
  _validate_item repr rec self validator data path strict key
  = _validate_item repr rec' self' validator data path strict key.
Proof.
  intros Hrec. unfold _validate_item.
  destruct (getitem data key) as [e | data_item]; [| apply Hrec].
  destruct e; try reflexivity;
    (destruct (negb (isinstance_IncludeIf validator)); [reflexivity | apply Hrec]).
Qed.

(** With one registry for both, the instance on which the recursion
    runs enters the result only where an IncludeIf reads its root
    document. *)
Lemma _validate_unconditional (fuel : nat) self self' validator data path
    strict :
  unconditional validator = true ->
  _validate repr dpath_get includes fuel self validator data path strict
  = _validate repr dpath_get includes fuel self' validator data path strict.
Proof.
  revert validator data path strict.
  induction fuel as [| fuel IH]; intros validator data path strict Hfree; [reflexivity |].
  cbn [_validate]. unfold _validate_method.
  destruct validator as [children | children | v].
  - unfold _validate_static_map_list.
    destruct (_ && negb (util.is_map data)); [reflexivity |].
    destruct (_ && negb (util.is_list data)); [reflexivity |].
    f_equal. cbn [util.get_iter as_map Node_container].
    erewrite for_each_ext_in; [reflexivity |].
    intros [key sub] Hin. apply _validate_item_ext. intros data' path'. apply IH.
    cbn [unconditional] in Hfree. rewrite forallb_forall in Hfree.
    apply (Hfree (key, sub) Hin).
  - unfold _validate_static_map_list.
    destruct (_ && negb (util.is_map data)); [reflexivity |].
    destruct (_ && negb (util.is_list data)); [reflexivity |].
    f_equal. cbn [util.get_iter as_map as_list Node_container].
    erewrite for_each_ext_in; [reflexivity |].
    intros [key sub] Hin. apply In_enumerate in Hin.
    apply _validate_item_ext. intros data' path'. apply IH.
    cbn [unconditional] in Hfree. rewrite forallb_forall in Hfree. apply (Hfree sub Hin).
  - destruct (is_None data && _ && _ && _); [reflexivity |].
    destruct (truthy (_validate_primitive repr v data path)); [reflexivity |].
    assert (Hdynamic : forall validators,
              forallb validator_unconditional validators = true ->
              forall keys,
                for_each
                  (fun key =>
                     sub_errors ←
                       collect_sub_errors
                         (fun sub =>
                            _validate_item repr (_validate repr dpath_get includes fuel)
                                           self (Leaf sub) data path strict key)
                         validators;
                     Ret (add_if_all_failed sub_errors validators)) keys
                = for_each
                    (fun key =>
                       sub_errors ←
                         collect_sub_errors
                           (fun sub =>
                              _validate_item repr (_validate repr dpath_get includes fuel)
                                             self' (Leaf sub) data path strict key)
                           validators;
                       Ret (add_if_all_failed sub_errors validators)) keys).
    { intros validators Hall keys. apply for_each_ext_in. intros key _.
      erewrite collect_sub_errors_ext_in; [reflexivity |].
      intros sub Hin. apply _validate_item_ext. intros data' path'. apply IH.
      rewrite forallb_forall in Hall. apply (Hall sub Hin). }
    destruct v as [base | base validators | base validators | base validators
                  | base include_name vstrict |];
      cbn [unconditional validator_unconditional] in Hfree; try discriminate Hfree;
      try reflexivity.
    + unfold _validate_map_list. destruct (negb (truthy validators)); [reflexivity |].
      destruct (util.get_keys data) as [keys |]; [| reflexivity].
      rewrite (Hdynamic validators Hfree keys). reflexivity.
    + unfold _validate_map_list. destruct (negb (truthy validators)); [reflexivity |].
      destruct (util.get_keys data) as [keys |]; [| reflexivity].
      rewrite (Hdynamic validators Hfree keys). reflexivity.
    + unfold _validate_any. destruct (negb (truthy validators)); [reflexivity |].
      erewrite collect_sub_errors_ext_in; [reflexivity |].
      intros sub Hin. apply IH. rewrite forallb_forall in Hfree. apply (Hfree sub Hin).
Qed.

(** With the instance and its root document fixed, the lenient
    validation of a map document against a static map node fetches the
    items of the document under the declared keys only. *)
Lemma _validate_lenient_items (fuel : nat) self
    (children : list (Key * Node)) (items items' : list (Key * Data)) path :
  (forall key, In key (map fst children) -> dict_get items key = dict_get items' key) ->
  _validate repr dpath_get includes (S fuel) self (NMap children) (DMap items) path false
  = _validate repr dpath_get includes (S fuel) self (NMap children) (DMap items') path false.
Proof.
  intros Hsame. cbn [_validate]. unfold _validate_method, _validate_static_map_list.
  cbn [util.is_map util.is_list util.get_iter as_map as_list Node_container
       Data_container negb andb].
  f_equal. erewrite for_each_ext_in; [reflexivity |].
  intros [key sub] Hin. unfold _validate_item. cbn [getitem].
  rewrite (Hsame key); [reflexivity |].
  apply in_map_iff. exists (key, sub). split; [reflexivity | exact Hin].
Qed.

(** The root document bound on an instance is read by the IncludeIf
    validators only: for a tree without IncludeIf the result is the same
    whichever root document is bound on the instance, and whether one is
    bound or none. *)
Theorem unconditional_tree_ignores_root_document (fuel : nat) self (root : option Data)
    validator data path strict :
  unconditional validator = true ->
  _validate repr dpath_get includes fuel (rebound self root) validator data path strict
  = _validate repr dpath_get includes fuel self validator data path strict.
Proof. apply _validate_unconditional. Qed.

(** A second call of [validate] on the store that a first call left is
    the call on the store before it: the document bound by the first call
    is replaced, not read. *)
Theorem validate_again (fuel fuel' : nat) (st : Store) data data_name strict
    data' data_name' strict' :
  validate repr dpath_get fuel'
           (fst (validate repr dpath_get fuel st data data_name strict))
           data' data_name' strict'
  = validate repr dpath_get fuel' st data' data_name' strict'.
Proof. reflexivity. Qed.

Lemma enumerate_keys {A : Type} (l : list A) (key : Key) :
  key ∈ map fst (util.enumerate l)
  <-> exists i : nat, key = KInt (Z.of_nat i) /\ (i < length l)%nat.
Proof.
  unfold util.enumerate. rewrite list_elem_of_fmap. split.
  - intros ([k x] & -> & Hin).
    apply elem_of_lookup_imap in Hin as (i & y & Heq & Hy).
    injection Heq as -> ->. exists i. split; [reflexivity |].
    eapply lookup_lt_Some, Hy.
  - intros (i & -> & Hi). apply lookup_lt_is_Some in Hi as [x Hx].
    exists (KInt (Z.of_nat i), x). split; [reflexivity |].
    apply elem_of_lookup_imap. exists i, x. split; [reflexivity | exact Hx].
Qed.

(** A list document against a static list node in strict mode: the
    result starts with one "Unexpected element" error for each index of
    the document beyond the length of the node ([extra] lists each such
    index once), followed by the errors of the declared indices in
    order. *)
Theorem validate_static_list_unexpected (fuel : nat) self
    (children : list Node) (items : list Data) path :
  exists extra : list Key,
    NoDup extra
    /\ (forall key : Key,
         key ∈ extra
         <-> exists i : nat,
               key = KInt (Z.of_nat i) /\ (length children <= i < length items)%nat)
    /\ _validate repr dpath_get includes (S fuel) self (NList children) (DList items)
                 path true
       = (item_errors ←
            for_each (fun '(key, sub_validator) =>
                        _validate_item repr (_validate repr dpath_get includes fuel)
                                       self sub_validator (DList items) path true key)
                     (util.enumerate children);
          Ret (map (fun key =>
                      DataPath.str repr (DataPath.add path (DataPath.of_key key))
                      +:+ ": Unexpected element") extra
               ++ item_errors)).
Proof.
  exists (list_difference (remove_dups (map fst (util.enumerate items)))
                          (remove_dups (map fst (util.enumerate children)))).
  split; [apply NoDup_list_difference, NoDup_remove_dups |]. split; [| reflexivity].
  intros key. rewrite list_elem_of_difference, !elem_of_remove_dups.
  rewrite !enumerate_keys. split.
  - intros ((i & -> & Hi) & Hnot). exists i. split; [reflexivity |].
    split; [| exact Hi].
    destruct (decide (length children <= i)%nat) as [Hle | Hlt]; [exact Hle |].
    exfalso. apply Hnot. exists i. split; [reflexivity | lia].
  - intros (i & -> & Hlow & Hhigh). split; [exists i; split; [reflexivity | exact Hhigh] |].
    intros (j & Heq & Hj). injection Heq as Heq. lia.
Qed.

End Frames.

Section Lenient.

Variable repr : Data -> string.
Variable dpath_get : Data -> string -> Exn + Data.

(** A lenient [validate] of a map document against a schema whose tree
    is a literal map with no IncludeIf in it reads the document under
    the declared keys only: two documents with the same values under
    the keys that the tree declares have the same outcome, the same
    aggregate error or none. *)
Theorem lenient_validate_reads_declared_keys (fuel : nat) (st : Store)
    (children : list (Key * Node)) (items items' : list (Key * Data))
    (data_name : string) :
  _schema (instance st) = NMap children ->
  unconditional (NMap children) = true ->
  (forall key, In key (map fst children) -> dict_get items key = dict_get items' key) ->
  snd (validate repr dpath_get fuel st (DMap items) data_name false)
  = snd (validate repr dpath_get fuel st (DMap items') data_name false).
Proof.
  intros Htree Hfree Hsame. unfold validate. cbn [snd registry instance].
  unfold error_str. cbn [set_root_data _schema name]. rewrite Htree.
  rewrite (_validate_unconditional repr dpath_get (registry st) fuel
             (set_root_data (instance st) (DMap items))
             (set_root_data (instance st) (DMap items'))
             (NMap children) (DMap items) DataPath.empty false Hfree).
  destruct fuel as [| fuel]; [reflexivity |].
  rewrite (_validate_lenient_items repr dpath_get (registry st) fuel
             (set_root_data (instance st) (DMap items'))
             children items items' DataPath.empty Hsame).
  reflexivity.
Qed.

End Lenient.


(** ** Properties of the compiler and of the registry *)

Section Compiling.

Variable repr : Data -> string.
Variable parse : string -> string + val.Validator.

Lemma Raw_nested_ind (P : Raw -> Prop) :
  (forall expression, P (RExpr expression)) ->
  (forall items, Forall (fun item => P (snd item)) items -> P (RMap items)) ->
  (forall items, Forall P items -> P (RList items)) ->
  forall raw, P raw.
Proof.
  intros Hexpr Hmap Hlist. fix IH 1. intros [expression | items | items].
  - apply Hexpr.
  - apply Hmap. revert items. fix each 1.
    intros [| item items]; constructor; [apply IH | apply each].
  - apply Hlist. revert items. fix each 1.
    intros [| item items]; constructor; [apply IH | apply each].
Qed.

(** *** A compilation that fails *)









(** *** A compilation that succeeds *)

Lemma process_items_compiled (items : list (Key * Raw)) :
  Forall (fun item =>
            forall path tree,
              _process_schema repr parse path (snd item) = inr tree
              <-> compiled parse (snd item) tree) items ->
  forall (path : DataPath.t) (children : list (Key * Node)),
    process_items
      (fun key data =>
         _process_schema repr parse (DataPath.add path (DataPath.of_key key)) data)
      items = inr children
    <-> Forall2 (fun item child =>
                   fst item = fst child /\ compiled parse (snd item) (snd child))
                items children.
Proof.
  induction 1 as [| [key data] items Hitem _ IH]; intros path children;
    cbn [process_items].
  - split; [intros H; injection H as <-; constructor |].
    intros H. inversion H. reflexivity.
  - cbn [snd] in Hitem.
    destruct (_process_schema repr parse (DataPath.add path (DataPath.of_key key)) data)
      as [e | node] eqn:Hdata.
    + split; [discriminate |]. intros H.
      inversion H as [| item [key' node'] items' children' [_ Hnode] _]; subst.
      cbn [snd] in Hnode. apply Hitem with (path := DataPath.add path (DataPath.of_key key))
        in Hnode. congruence.
    + destruct (process_items _ items) as [e | nodes] eqn:Hrest.
      * split; [discriminate |]. intros H.
        inversion H as [| item child items' children' _ Hall]; subst.
        apply (IH path) in Hall. congruence.
      * split.
        -- intros H. injection H as <-. constructor.
           ++ split; [reflexivity |]. cbn [snd]. eapply Hitem, Hdata.
           ++ apply (IH path). exact Hrest.
        -- intros H.
           inversion H as [| item [key' node'] items' children' [Hkey Hnode] Hall]; subst.
           cbn [fst snd] in Hkey, Hnode. subst key'.
           apply Hitem with (path := DataPath.add path (DataPath.of_key key)) in Hnode.
           apply (IH path) in Hall. congruence.
Qed.

Lemma process_sequence_compiled (items : list Raw) :
  Forall (fun data =>
            forall path tree,
              _process_schema repr parse path data = inr tree
              <-> compiled parse data tree) items ->
  forall (path : DataPath.t) (i : nat) (children : list Node),
    process_sequence
      (fun key data =>
         _process_schema repr parse (DataPath.add path (DataPath.of_key key)) data)
      i items = inr children
    <-> Forall2 (compiled parse) items children.
Proof.
  induction 1 as [| data items Hitem _ IH]; intros path i children;
    cbn [process_sequence].
  - split; [intros H; injection H as <-; constructor |].
    intros H. inversion H. reflexivity.
  - destruct (_process_schema repr parse
                (DataPath.add path (DataPath.of_key (KInt (Z.of_nat i)))) data)
      as [e | node] eqn:Hdata.
    + split; [discriminate |]. intros H.
      inversion H as [| item node' items' children' Hnode _]; subst.
      apply Hitem with (path := DataPath.add path (DataPath.of_key (KInt (Z.of_nat i))))
        in Hnode. congruence.
    + destruct (process_sequence _ (S i) items) as [e | nodes] eqn:Hrest.
      * split; [discriminate |]. intros H.
        inversion H as [| item child items' children' _ Hall]; subst.
        apply (IH path (S i)) in Hall. congruence.
      * split.
        -- intros H. injection H as <-. constructor.
           ++ eapply Hitem, Hdata.
           ++ apply (IH path (S i)). exact Hrest.
        -- intros H.
           inversion H as [| item node' items' children' Hnode Hall]; subst.
           apply Hitem with (path := DataPath.add path (DataPath.of_key (KInt (Z.of_nat i))))
             in Hnode.
           apply (IH path (S i)) in Hall. congruence.
Qed.

(** The tree that a compilation returns is the raw schema with each
    expression replaced by the validator that [parse] gives for it, the
    keys and their order kept; the path handed to the compilation plays
    no part in it. *)
Theorem compile_keeps_the_shape (raw : Raw) (path : DataPath.t) (tree : Node) :
  _process_schema repr parse path raw = inr tree <-> compiled parse raw tree.
Proof.
  revert path tree.
  induction raw as [expression | items IH | items IH] using Raw_nested_ind;
    intros path tree; cbn [_process_schema].
  - unfold _parse_schema_item. destruct (parse expression) as [e | validator] eqn:Hparse.
    + split; [discriminate |]. intros H. inversion H. congruence.
    + split.
      * intros H. injection H as <-. constructor. exact Hparse.
      * intros H. inversion H. congruence.
  - pose proof (process_items_compiled items IH path) as Hitems.
    destruct (process_items _ items) as [e | children].
    + split; [discriminate |]. intros H. inversion H as [| ? children Hall |]; subst.
      apply Hitems in Hall. discriminate Hall.
    + split.
      * intros H. injection H as <-. constructor. apply Hitems. reflexivity.
      * intros H. inversion H as [| ? children' Hall |]; subst.
        apply Hitems in Hall. congruence.
  - pose proof (process_sequence_compiled items IH path 0) as Hitems.
    destruct (process_sequence _ 0 items) as [e | children].
    + split; [discriminate |]. intros H. inversion H as [| | ? children Hall]; subst.
      apply Hitems in Hall. discriminate Hall.
    + split.
      * intros H. injection H as <-. constructor. apply Hitems. reflexivity.
      * intros H. inversion H as [| | ? children' Hall]; subst.
        apply Hitems in Hall. congruence.
Qed.

End Compiling.

Section Registry.

Variable repr : Data -> string.
Variable dpath_get : Data -> string -> Exn + Data.
Variable parse : string -> string + val.Validator.

Lemma Schema_init_inr (raw : Raw) (schema_name : string) (t : Schema) :
  Schema_init repr parse raw schema_name = inr t ->
  exists tree,
    _process_schema repr parse DataPath.empty raw = inr tree
    /\ t = {| name := schema_name; _schema := tree; _root_data := None |}.
Proof.
  unfold Schema_init.
  destruct (_process_schema repr parse DataPath.empty raw) as [e | tree];
    [discriminate |].
  intros H. injection H as <-. exists tree. split; reflexivity.
Qed.

(** After an [add_include] that does not raise, on a dictionary (no name
    twice), each name of the dictionary is registered with a new schema
    of that name, compiled from its raw schema and without a root
    document, replacing what was registered under the name; every other
    name is registered as before. *)
Theorem add_include_registers (includes includes' : gmap string Schema)
    (type_dict : list (string * Raw)) :
  NoDup (map fst type_dict) ->
  add_include repr parse includes type_dict = (includes', None) ->
  (forall include_name custom_type,
     In (include_name, custom_type) type_dict ->
     exists tree,
       _process_schema repr parse DataPath.empty custom_type = inr tree
       /\ includes' !! include_name
          = Some {| name := include_name; _schema := tree; _root_data := None |})
  /\ (forall other : string,
        ~ In other (map fst type_dict) -> includes' !! other = includes !! other).
Proof.
  revert includes.
  induction type_dict as [| [include_name custom_type] type_dict IH];
    intros includes Hnodup Hadd; cbn [add_include] in Hadd.
  - injection Hadd as <-. split; [intros ? ? [] | reflexivity].
  - destruct (Schema_init repr parse custom_type include_name) as [e | t] eqn:Hinit;
      [discriminate |].
    apply Schema_init_inr in Hinit as (tree & Htree & ->).
    cbn [map fst] in Hnodup. apply NoDup_cons in Hnodup as [Hfresh Hnodup].
    destruct (IH _ Hnodup Hadd) as [Hin Hout]. split.
    + intros name raw [Heq | Hrest]; [| apply (Hin name raw Hrest)].
      injection Heq as <- <-. exists tree. split; [exact Htree |].
      rewrite Hout; [apply lookup_insert_eq |].
      intros Hname. apply Hfresh, list_elem_of_In, Hname.
    + intros other Hother. rewrite Hout.
      * apply lookup_insert_ne. intros ->. apply Hother. left. reflexivity.
      * intros Hname. apply Hother. right. exact Hname.
Qed.


Lemma add_include_unbound (includes : gmap string Schema)
    (type_dict : list (string * Raw)) :
  (forall include_name s, includes !! include_name = Some s -> _root_data s = None) ->
  forall include_name s,
    fst (add_include repr parse includes type_dict) !! include_name = Some s ->
    _root_data s = None.
Proof.
  revert includes.
  induction type_dict as [| [name custom_type] type_dict IH]; intros includes Hunbound;
    cbn [add_include]; [exact Hunbound |].
  destruct (Schema_init repr parse custom_type name) as [e | t] eqn:Hinit;
    [exact Hunbound |].
  apply IH. intros include_name s.
  destruct (decide (name = include_name)) as [-> | Hne].
  - rewrite lookup_insert_eq. intros H. injection H as <-.
    apply Schema_init_inr in Hinit as (tree & _ & ->). reflexivity.
  - rewrite lookup_insert_ne by exact Hne. apply Hunbound.
Qed.

(** A schema registered by [add_include] has no root document: when its
    tree is an IncludeIf whose own check passes, the validation of an
    include of its name raises [AttributeError] instead of reporting
    errors. *)
Theorem registered_include_if_raises (includes : gmap string Schema)
    (type_dict : list (string * Raw)) (fuel : nat) self (s : Schema)
    base include_name vstrict
    base' if_path if_include_test then_include else_include vstrict'
    data path strict :
  (forall other t, includes !! other = Some t -> _root_data t = None) ->
  let includes' := fst (add_include repr parse includes type_dict) in
  includes' !! include_name = Some s ->
  _schema s = Leaf (val.IncludeIf base' if_path if_include_test then_include
                                  else_include vstrict') ->
  skipped (val.Include base include_name vstrict) data = false ->
  val.validate base data = [] ->
  val.validate base' data = [] ->
  _validate repr dpath_get includes' (S (S fuel)) self
            (Leaf (val.Include base include_name vstrict)) data path strict
  = Raise AttributeError.
Proof.
  intros Hunbound includes' Hregistered Htree Hskip Hvalid Hvalid'.
  rewrite (_validate_include_leaf _ _ _ _ _ _ _ _ _ _ _ Hskip Hvalid), Hregistered, Htree.
  cbn [_validate]. rewrite _validate_leaf_passed.
  - unfold _validate_include_if.
    rewrite (add_include_unbound includes type_dict Hunbound include_name s Hregistered).
    reflexivity.
  - unfold skipped. cbn [isinstance_IncludeIf negb]. apply andb_false_r.
  - exact Hvalid'.
Qed.

End Registry.


(** ** The further properties on the samples *)

Lemma failed_leaf_is_not_entered_sample :
  _validate sample_repr sample_get ∅ 1 schema_a (Leaf map_of_str) (DInt 1)
            (DataPath.of_key (KStr "a")) true
  = Ret ["a: '1' is not a map."].
Proof.
  apply (failed_leaf_is_not_entered sample_repr sample_get ∅ 0 schema_a map_of_str
           (DInt 1) (DataPath.of_key (KStr "a")) true eq_refl).
  discriminate.
Defined.

Lemma include_validates_like_its_schema_sample :
  _validate sample_repr sample_get sample_includes 2 schema_a
            (Leaf (val.Include (composite true) "an_int" None)) (DStr "x")
            (DataPath.of_key (KStr "a")) true
  = Ret ["a: 'x' is not a int."].
Proof.
  apply (proj1 (include_validates_like_its_schema sample_repr sample_get sample_includes
                  1 schema_a (composite true) "an_int" None (DStr "x")
                  (DataPath.of_key (KStr "a")) true eq_refl eq_refl)
               (schema_of "an_int" (Leaf (int_ true))) eq_refl).
Defined.

Lemma self_include_never_returns_sample :
  _validate sample_repr sample_get looping_includes 50 schema_a (Leaf include_loop)
            (DInt 1) DataPath.empty false
  = Diverge.
Proof.
  apply (self_include_never_returns sample_repr sample_get looping_includes 50 schema_a
           (schema_of "loop" (Leaf include_loop)) (composite true) "loop" None
           (DInt 1) DataPath.empty false eq_refl eq_refl eq_refl eq_refl).
Defined.

Lemma single_sub_validator_sample :
  _validate_map_list sample_repr (_validate sample_repr sample_get ∅ 1) schema_a
                     (val.Map (composite true) [int_ true]) doc_x_none
                     DataPath.empty false
  = Ret ["a: 'x' is not a int."; "b: 'None' is not a int."].
Proof.
  apply (proj1 (proj2 (single_sub_validator sample_repr sample_get ∅ 1 schema_a
                         (composite true) (int_ true) doc_x_none DataPath.empty false)
                      [KStr "a"; KStr "b"] eq_refl)).
Defined.

Lemma include_free_validation_returns_sample :
  _validate sample_repr sample_get ∅ 2 schema_a (_schema schema_a) data_a_b
            DataPath.empty true
  <> Diverge.
Proof.
  apply (include_free_validation_returns sample_repr sample_get ∅ 2 schema_a
           (_schema schema_a) data_a_b DataPath.empty true eq_refl).
  cbn. lia.
Defined.

Lemma larger_budget_same_result_sample :
  _validate sample_repr sample_get ∅ 7 schema_a (_schema schema_a) data_a_b
            DataPath.empty true
  = _validate sample_repr sample_get ∅ 2 schema_a (_schema schema_a) data_a_b
              DataPath.empty true.
Proof.
  apply (larger_budget_same_result sample_repr sample_get ∅ 2 7 schema_a
           (_schema schema_a) data_a_b DataPath.empty true).
  - lia.
  - discriminate.
Defined.

Lemma unconditional_tree_ignores_root_document_sample :
  _validate sample_repr sample_get sample_includes 2 (rebound schema_a (Some doc_a_5))
            (_schema schema_a) data_a_b DataPath.empty true
  = _validate sample_repr sample_get sample_includes 2 schema_a (_schema schema_a)
              data_a_b DataPath.empty true.
Proof.
  apply (unconditional_tree_ignores_root_document sample_repr sample_get sample_includes
           2 schema_a (Some doc_a_5) (_schema schema_a) data_a_b DataPath.empty true
           eq_refl).
Defined.

Lemma lenient_validate_reads_declared_keys_sample :
  snd (validate sample_repr sample_get 2 {| instance := schema_a; registry := ∅ |}
                (DMap [(KStr "a", DStr "x")]) "data" false)
  = snd (validate sample_repr sample_get 2 {| instance := schema_a; registry := ∅ |}
                  data_a_b "data" false).
Proof.
  apply (lenient_validate_reads_declared_keys sample_repr sample_get 2
           {| instance := schema_a; registry := ∅ |}
           [(KStr "a", Leaf (str_ true))]
           [(KStr "a", DStr "x")] [(KStr "a", DStr "x"); (KStr "b", DInt 1)]
           "data" eq_refl eq_refl).
  intros key [<- | []]. reflexivity.
Defined.



Lemma compile_keeps_the_shape_sample : compiled sample_parse raw_good tree_good.
Proof.
  apply (proj1 (compile_keeps_the_shape sample_repr sample_parse raw_good
                  DataPath.empty tree_good)).
  reflexivity.
Defined.

Lemma add_include_registers_sample :
  fst (add_include sample_repr sample_parse ∅ types_int_str) !! "a_str"
  = Some (schema_of "a_str" (Leaf (str_ true))).
Proof.
  assert (Hnodup : NoDup (map fst types_int_str)).
  { apply (bool_decide_unpack _). vm_compute. exact I. }
  destruct (proj1 (add_include_registers sample_repr sample_parse ∅
                     (fst (add_include sample_repr sample_parse ∅ types_int_str))
                     types_int_str Hnodup eq_refl)
                  "a_str" (RExpr "str()") (or_intror (or_introl eq_refl)))
    as (tree & Htree & Hlookup).
  injection Htree as <-. exact Hlookup.
Defined.

Lemma registered_include_if_raises_sample :
  _validate sample_repr sample_get
            (fst (add_include sample_repr sample_parse ∅ types_cond)) 2
            (set_root_data schema_typed doc_a_5)
            (Leaf (val.Include (composite true) "cond" None)) (DInt 5)
            (DataPath.of_key (KStr "value")) true
  = Raise AttributeError.
Proof.
  apply (registered_include_if_raises sample_repr sample_get sample_parse ∅ types_cond
           0 (set_root_data schema_typed doc_a_5)
           (schema_of "cond" (Leaf (value_if None)))
           (composite true) "cond" None
           (composite true) "/type" "is_a" "an_int" None None
           (DInt 5) (DataPath.of_key (KStr "value")) true);
    try reflexivity.
  intros other t Hempty. rewrite lookup_empty in Hempty. discriminate Hempty.
Defined.
